(** * Dataverse to bronze: a shallow embedding of the ingestion notebook

    The notebook [Dataverse_to_Bronze_fst_chemical.py] reads its configuration,
    acquires a token, walks the OData [@odata.nextLink] protocol with a bounded
    retry policy and lands the records as a table.  Its functions are modelled
    here with the network, the secret store, the token provider and the clock
    made explicit:

    - the HTTP session is a script of responses consumed one per [SESSION.get];
    - every request, every sleep and every token call is appended to a log;
    - exceptions are values of [Exn] carried by the result type [Res]. *)

From Stdlib Require Import ZArith List String Ascii Bool Lia DecimalString.
Import ListNotations.
Local Open Scope string_scope.
Local Open Scope list_scope.
Local Open Scope Z_scope.

Set Warnings "-register-all".

(** ** Parsed JSON values, as [requests] and [json.loads] hand them over *)

Inductive json : Type :=
| JNull
| JBool (b : bool)
| JInt (z : Z)
| JFloat (m e : Z)                       (* the finite double m * 2^e *)
| JStr (s : string)
| JArr (items : list json)
| JObj (fields : list (string * json)).  (* a dict, each key once, in insertion order *)

Definition dict := list (string * json).

(** [d.get(key)] on the fields of a dict. *)
Fixpoint lookup (key : string) (d : dict) : option json :=
  match d with
  | [] => None
  | (k, v) :: t => if String.eqb k key then Some v else lookup key t
  end.

(** Python truthiness: [bool(v)]. *)
Definition truthy (v : json) : bool :=
  match v with
  | JNull => false
  | JBool b => b
  | JInt z => negb (z =? 0)
  | JFloat m _ => negb (m =? 0)
  | JStr s => negb (String.eqb s "")
  | JArr l => match l with [] => false | _ => true end
  | JObj d => match d with [] => false | _ => true end
  end.

(** ** Exceptions, events and the world *)

Inductive Exn : Type :=
| ConnectionError                         (* SESSION.get raised: nothing answers *)
| UrlRefused                              (* requests raises on a url that is not text *)
| JSONDecodeError                         (* r.json() on a body that does not parse *)
| OverflowError                           (* int too large to convert to float *)
| AttributeError                          (* .get on a value that is not a dict *)
| TypeError                               (* iterating a value that is not iterable *)
| GetFailed (status : Z) (details : json + string)
                                          (* RuntimeError("GET failed {status}: {details}") *)
| ExceededRetries                         (* RuntimeError("Exceeded retries for GET.") *)
| MissingConfig (missing : list string) (scope : string)
                                          (* ValueError("Missing config: {missing}. ...") *)
| TokenFailed (result : dict).            (* RuntimeError("Token acquisition failed: {result}") *)

Record Response : Type := mkResponse {
  status_code : Z;
  json_body : option json;                (* what r.json() parses, None when it raises *)
  text : string
}.

Inductive Event : Type :=
| Get (url : string) (params : option (list (string * string)))
| Sleep (seconds : Z)
| AcquireSilent (scopes : list string)
| AcquireForClient (scopes : list string).

Record World : Type := mkWorld {
  script : list Response;                 (* what the endpoint answers, in order *)
  log : list Event                        (* what the job did, oldest first *)
}.

Inductive Res (A : Type) : Type :=
| Ok (a : A)
| Raise (e : Exn)
| Unmodelled                              (* input outside what the table model covers *)
| OutOfFuel.
Arguments Ok {A} a.
Arguments Raise {A} e.
Arguments Unmodelled {A}.
Arguments OutOfFuel {A}.

Definition M (A : Type) : Type := World -> Res A * World.

Definition ret {A} (a : A) : M A := fun w => (Ok a, w).
Definition raise {A} (e : Exn) : M A := fun w => (Raise e, w).
Definition out_of_fuel {A} : M A := fun w => (OutOfFuel, w).
Definition unmodelled {A} : M A := fun w => (Unmodelled, w).

Definition bind {A B} (m : M A) (k : A -> M B) : M B :=
  fun w =>
    match m w with
    | (Ok a, w') => k a w'
    | (Raise e, w') => (Raise e, w')
    | (Unmodelled, w') => (Unmodelled, w')
    | (OutOfFuel, w') => (OutOfFuel, w')
    end.

Notation "x <- m ;; k" := (bind m (fun x => k))
  (at level 61, m at next level, right associativity).
Notation "m ;;; k" := (bind m (fun _ => k))
  (at level 61, right associativity).

Definition emit (e : Event) : M unit :=
  fun w => (Ok tt, mkWorld (script w) (log w ++ [e])).

(** ** Dataverse helpers (OData v4) *)

(** [SESSION.get(url, params=params, timeout=60)]: the request is logged and the
    next scripted response returned; with nothing left to answer it raises. *)
Definition session_get (url : string) (params : option (list (string * string)))
  : M Response :=
  fun w =>
    let w1 := mkWorld (script w) (log w ++ [Get url params]) in
    match script w with
    | [] => (Raise ConnectionError, w1)
    | r :: rest => (Ok r, mkWorld rest (log w1))
    end.

(** [r.json()] *)
Definition r_json (r : Response) : M json :=
  match json_body r with
  | Some j => ret j
  | None => raise JSONDecodeError
  end.

(** [min(cap, base*(2**(attempt-1)))] with base 1.0 and cap 30.0, in whole
    seconds.  The power is an exact integer for [attempt >= 1], the only values
    [dataverse_get] passes. *)
Definition backoff_delay (attempt : Z) : Z := Z.min 30 (1 * 2 ^ (attempt - 1)).

(** [_backoff(attempt)].  [2**(attempt-1)] is an int and its product with the
    float [base] converts it to a double first, which raises from [2**1024]
    on. *)
Definition _backoff (attempt : Z) : M unit :=
  if 1024 <=? attempt - 1 then raise OverflowError
  else emit (Sleep (backoff_delay attempt)).

Definition retryable (status : Z) : bool :=
  existsb (Z.eqb status) [429; 500; 502; 503; 504].

(** The body of [for a in range(1, max_retries+1)], with [n] attempts left. *)
Fixpoint attempts (n : nat) (a : Z) (url : string)
    (params : option (list (string * string))) : M json :=
  match n with
  | O => raise ExceededRetries
  | S n' =>
      r <- session_get url params ;;
      if status_code r =? 200 then r_json r
      else if retryable (status_code r) then
        _backoff a ;;; attempts n' (a + 1) url params
      else
        raise (GetFailed (status_code r)
                 match json_body r with
                 | Some j => inl j
                 | None => inr (text r)
                 end)
  end.

Definition dataverse_get (url : string) (params : option (list (string * string)))
    (max_retries : Z) : M json :=
  attempts (Z.to_nat max_retries) 1 url params.

(** [int(top)] inside an f-string. *)
Definition str_of_int (z : Z) : string := NilZero.string_of_int (Z.to_int z).

(** [build_entity_url]; [RESOURCE] is the notebook's global, [API_VER] its
    constant.  [if select], [if filter_] and [if top] are truthiness tests. *)
Definition API_VER : string := "v9.2".

Definition build_entity_url (RESOURCE entity_set : string)
    (select : option (list string)) (filter_ : option string) (top : option Z)
  : string :=
  let base := (RESOURCE ++ "/api/data/" ++ API_VER ++ "/" ++ entity_set)%string in
  let params : list string := [] in
  let params :=
    match select with
    | Some (c :: cs) => params ++ [("$select=" ++ String.concat "," (c :: cs))%string]
    | _ => params
    end in
  let params :=
    match filter_ with
    | Some f => if String.eqb f "" then params else params ++ [("$filter=" ++ f)%string]
    | None => params
    end in
  let params :=
    match top with
    | Some t => if t =? 0 then params else params ++ [("$top=" ++ str_of_int t)%string]
    | None => params
    end in
  (base ++ match params with
           | [] => ""
           | _ => "?" ++ String.concat "&" params
           end)%string.

(** [data.get(key, default)]: only a dict has [.get]. *)
Definition py_get (data : json) (key : string) (default : json) : M json :=
  match data with
  | JObj d => ret match lookup key d with Some v => v | None => default end
  | _ => raise AttributeError
  end.

Fixpoint chars (s : string) : list json :=
  match s with
  | EmptyString => []
  | String c t => JStr (String c EmptyString) :: chars t
  end.

(** What [for row in v] visits. *)
Definition py_iter (v : json) : M (list json) :=
  match v with
  | JArr l => ret l
  | JStr s => ret (chars s)
  | JObj d => ret (map (fun kv => JStr (fst kv)) d)
  | _ => raise TypeError
  end.

(** The generator object of [fetch_all], suspended at one of its three program
    points: before the request of [url], inside the [for] loop over the rows of
    the page [data], or finished. *)
Inductive Gen : Type :=
| GStart (url : string)
| GRows (rows : list json) (data : json)
| GDone.

(** [next(gen)]: runs the generator to its next [yield] ([Some row]) or to its
    end ([None], StopIteration).  One unit of fuel per program point passed. *)
Fixpoint gen_next (fuel : nat) (g : Gen) : M (option json * Gen) :=
  match fuel with
  | O => out_of_fuel
  | S f =>
      match g with
      | GDone => ret (None, GDone)
      | GStart url =>
          data <- dataverse_get url None 5 ;;
          v <- py_get data "value" (JArr []) ;;
          rows <- py_iter v ;;
          gen_next f (GRows rows data)
      | GRows (row :: rows) data => ret (Some row, GRows rows data)
      | GRows [] data =>
          next_link <- py_get data "@odata.nextLink" JNull ;;
          if negb (truthy next_link) then ret (None, GDone)
          else match next_link with
               | JStr url => gen_next f (GStart url)
               | _ => raise UrlRefused
               end
      end
  end.

(** [fetch_all(entity_set, select, filter_, page_size)] creates the generator;
    nothing runs until it is advanced. *)
Definition fetch_all (RESOURCE entity_set : string) (select : option (list string))
    (filter_ : option string) (page_size : Z) : Gen :=
  GStart (build_entity_url RESOURCE entity_set select filter_ (Some page_size)).

(** [list(gen)] *)
Fixpoint list_gen (fuel : nat) (it : Gen) (acc : list json) : M (list json) :=
  match fuel with
  | O => out_of_fuel
  | S f =>
      step <- gen_next f it ;;
      match step with
      | (None, _) => ret acc
      | (Some row, it') => list_gen f it' (acc ++ [row])
      end
  end.

(** The sampling loop of [dataverse_to_spark]:
    [for row in it: sample.append(row); if len(sample) >= sample_rows: break]. *)
Fixpoint take_sample (fuel : nat) (it : Gen) (sample : list json) (sample_rows : Z)
  : M (list json) :=
  match fuel with
  | O => out_of_fuel
  | S f =>
      step <- gen_next f it ;;
      match step with
      | (None, _) => ret sample
      | (Some row, it') =>
          let sample := sample ++ [row] in
          if Z.of_nat (List.length sample) >=? sample_rows then ret sample
          else take_sample f it' sample sample_rows
      end
  end.

(** ** Tables: pandas and Spark, by their documented behaviour *)

(** A cell after [astype("string")]: missing, or the text of a value. *)
Inductive Cell : Type :=
| Null
| Text (v : json).

Record Table : Type := mkTable {
  columns : list string;
  rows : list (list Cell)                 (* each row aligned with [columns] *)
}.

(** [d[key] = v] on an insertion-ordered dict. *)
Fixpoint dict_set (d : dict) (key : string) (v : json) : dict :=
  match d with
  | [] => [(key, v)]
  | (k, x) :: t => if String.eqb k key then (k, v) :: t else (k, x) :: dict_set t key v
  end.

Definition is_dict (v : json) : bool :=
  match v with JObj _ => true | _ => false end.

(** pandas' [_normalise_json]: nested dicts become dotted keys, every other
    value is stored under the key built so far. *)
Fixpoint normalise_json (data : json) (key_string : string) (normalized : dict) : dict :=
  match data with
  | JObj fields =>
      (fix items (l : list (string * json)) (acc : dict) : dict :=
         match l with
         | [] => acc
         | (key, value) :: t =>
             let new_key :=
               if String.eqb key_string "" then key
               else (key_string ++ "." ++ key)%string in
             items t (normalise_json value new_key acc)
         end) fields normalized
  | _ => dict_set normalized key_string data
  end.

(** [{**a, **b}] *)
Definition dict_merge (a b : dict) : dict :=
  fold_left (fun acc kv => dict_set acc (fst kv) (snd kv)) b a.

(** pandas' [_normalise_json_ordered]: top-level scalars first, then the
    flattened nested dicts. *)
Definition flatten (record : dict) : dict :=
  let top_dict := filter (fun kv => negb (is_dict (snd kv))) record in
  let nested := normalise_json (JObj (filter (fun kv => is_dict (snd kv)) record)) "" [] in
  dict_merge top_dict nested.

Fixpoint as_records (l : list json) : option (list dict) :=
  match l with
  | [] => Some []
  | JObj d :: t => option_map (cons d) (as_records t)
  | _ :: t => None
  end.


(** Column labels of [DataFrame(list of dicts)]: keys in order of first
    appearance. *)
Definition add_keys (cols : list string) (d : dict) : list string :=
  fold_left (fun cols kv =>
               if existsb (String.eqb (fst kv)) cols then cols
               else cols ++ [fst kv]) d cols.

Definition frame_columns (flat : list dict) : list string :=
  fold_left add_keys flat [].

(** A cell of the string-typed frame: absent keys and nulls are missing. *)
Definition cell_of (d : dict) (c : string) : Cell :=
  match lookup c d with
  | Some JNull => Null
  | Some v => Text v
  | None => Null
  end.

Definition frame_row (cols : list string) (d : dict) : list Cell :=
  map (cell_of d) cols.

(** [spark.createDataFrame(pd.json_normalize(records).astype("string"))] *)
Definition frame (records : list dict) : Table :=
  let flat := map flatten records in
  let cols := frame_columns flat in
  mkTable cols (map (frame_row cols) flat).

(** The same on a batch as the generator yields it; a batch holding something
    else than records is outside the model. *)
Definition frame_of (batch : list json) : M Table :=
  match as_records batch with
  | None => unmodelled
  | Some records => ret (frame records)
  end.

(** Positional access by column name. *)
Fixpoint row_get (cols : list string) (row : list Cell) (c : string) : option Cell :=
  match cols, row with
  | k :: cols', v :: row' => if String.eqb k c then Some v else row_get cols' row' c
  | _, _ => None
  end.

Definition realign (from to : list string) (row : list Cell) : list Cell :=
  map (fun c => match row_get from row c with Some v => v | None => Null end) to.

(** [sdf.unionByName(sdf2, allowMissingColumns=True)]: the columns of the left
    table, then those only the right one has; cells of columns a side lacks
    are null.  Column names are compared as they are written, which is what
    Spark does under [spark.sql.caseSensitive]; by default it ignores case,
    and the two agree on names of which no two differ by case only. *)
Definition unionByName (sdf sdf2 : Table) : Table :=
  let extra := filter (fun c => negb (existsb (String.eqb c) (columns sdf))) (columns sdf2) in
  let cols := columns sdf ++ extra in
  mkTable cols
    (map (realign (columns sdf) cols) (rows sdf)
     ++ map (realign (columns sdf2) cols) (rows sdf2)).

(** [spark.createDataFrame([], T.StructType([]))] *)
Definition empty_table : Table := mkTable [] [].

(** [dataverse_to_spark].  The sample is drawn from the generator [it]; the
    second batch is [list(fetch_all(...))], a generator of its own. *)
Definition dataverse_to_spark (fuel : nat) (RESOURCE entity_set : string)
    (select : option (list string)) (filter_ : option string) (sample_rows : Z)
  : M Table :=
  let it := fetch_all RESOURCE entity_set select filter_ 5000 in
  sample <- take_sample fuel it [] sample_rows ;;
  match sample with
  | [] => ret empty_table
  | _ =>
      sdf <- frame_of sample ;;
      rest <- list_gen fuel (fetch_all RESOURCE entity_set select filter_ 5000) [] ;;
      match rest with
      | [] => ret sdf
      | _ =>
          sdf2 <- frame_of rest ;;
          ret (unionByName sdf sdf2)
      end
  end.

(** ** Configuration (secrets or widgets) *)

Record Notebook : Type := mkNotebook {
  SECRET_SCOPE : string;
  dbutils : option (string -> string -> option string);
                      (* dbutils.secrets.get(scope, key); None where it raises;
                         no dbutils at all outside Databricks *)
  widgets : string -> string               (* widgets.get(name) *)
}.

(** [_dbutils().secrets.get(SECRET_SCOPE, key)], [None] when it raises. *)
Definition secret (nb : Notebook) (key : string) : option string :=
  match dbutils nb with
  | Some secrets_get => secrets_get (SECRET_SCOPE nb) key
  | None => None
  end.

(** [v or w] for an optional string [v]. *)
Definition py_or (v : option string) (w : string) : string :=
  match v with
  | Some s => if String.eqb s "" then w else s
  | None => w
  end.

(** The [try] blocks of [get_cfg]: a secret that cannot be read among the first
    three leaves all four values [None]; the url has a handler of its own. *)
Definition read_secrets (nb : Notebook)
  : option string * option string * option string * option string :=
  match secret nb "dataverse-client-id" with
  | None => (None, None, None, None)
  | Some cid =>
      match secret nb "dataverse-client-secret" with
      | None => (None, None, None, None)
      | Some csec =>
          match secret nb "dataverse-tenant-id" with
          | None => (None, None, None, None)
          | Some tid => (Some cid, Some csec, Some tid, secret nb "dataverse-url")
          end
      end
  end.

Definition get_cfg (nb : Notebook) : Exn + (string * string * string * string) :=
  let '(cid, csec, tid, url) := read_secrets nb in
  let cid := py_or cid (widgets nb "client_id") in
  let csec := py_or csec (widgets nb "client_secret") in
  let tid := py_or tid (widgets nb "tenant_id") in
  let url := py_or url (widgets nb "dataverse_url") in
  let missing :=
    map fst (filter (fun kv => String.eqb (snd kv) "")
               [("client_id", cid); ("client_secret", csec);
                ("tenant_id", tid); ("dataverse_url", url)]) in
  match missing with
  | [] => inr (cid, csec, tid, url)
  | _ => inl (MissingConfig missing (SECRET_SCOPE nb))
  end.

(** ** Authenticate (MSAL client credentials) *)

Record ConfidentialClientApplication : Type := mkApp {
  acquire_token_silent : list string -> option dict;
  acquire_token_for_client : list string -> dict
}.

(** [msal] builds the application from client id, credential and authority. *)
Definition get_access_token
    (msal : string -> string -> string -> ConfidentialClientApplication)
    (client_id client_secret tenant_id scope : string) : M json :=
  let authority := ("https://login.microsoftonline.com/" ++ tenant_id)%string in
  let app := msal client_id client_secret authority in
  emit (AcquireSilent [scope]) ;;;
  let result := acquire_token_silent app [scope] in
  result <-
    match result with
    | Some (kv :: d) => ret (kv :: d)
    | _ => emit (AcquireForClient [scope]) ;;; ret (acquire_token_for_client app [scope])
    end ;;
  match lookup "access_token" result with
  | None => raise (TokenFailed result)
  | Some tok => ret tok
  end.

(** ** Vocabulary of the statements *)

(** What [k] retried attempts leave in the log, the first being attempt [a]. *)
Fixpoint retry_events (k : nat) (a : Z) (url : string)
    (params : option (list (string * string))) : list Event :=
  match k with
  | O => []
  | S k' => Get url params :: Sleep (backoff_delay a) :: retry_events k' (a + 1) url params
  end.

(** Number of HTTP requests in a log. *)
Definition requests (l : list Event) : nat :=
  List.length (filter (fun e => match e with Get _ _ => true | _ => false end) l).

(** The sleeps of a log, in order. *)
Definition sleeps (l : list Event) : list Z :=
  flat_map (fun e => match e with Sleep s => [s] | _ => [] end) l.

(** Attempt numbers [1..k]. *)
Definition attempt_numbers (k : nat) : list Z := map Z.of_nat (seq 1 k).

(** What [dataverse_get] attaches to a fatal status. *)
Definition details_of (r : Response) : json + string :=
  match json_body r with
  | Some j => inl j
  | None => inr (text r)
  end.

(** A page as the endpoint sends it: the records of its [value] array and its
    continuation link, if any. *)
Record Page : Type := mkPage {
  records : list json;
  next_link : option string
}.

(** The continuation link of the dict [d] is that of the page [p]: a
    non-empty url under [@odata.nextLink], or no such key. *)
Definition link_of (d : dict) (p : Page) : Prop :=
  match next_link p with
  | Some u => lookup "@odata.nextLink" d = Some (JStr u) /\ u <> ""
  | None => lookup "@odata.nextLink" d = None
  end.

(** The response [r] is an HTTP 200 whose body is a JSON object carrying the
    page [p]: [value] holds the records and the link is that of the page. *)
Definition serves (r : Response) (p : Page) : Prop :=
  status_code r = 200 /\
  exists d, json_body r = Some (JObj d) /\
    lookup "value" d = Some (JArr (records p)) /\ link_of d p.

(** Every page but the last carries a link, the last carries none. *)
Fixpoint chained (ps : list Page) : Prop :=
  match ps with
  | [] => False
  | [p] => next_link p = None
  | p :: ps' => next_link p <> None /\ chained ps'
  end.

(** The links of a sequence of pages, in order. *)
Definition links (ps : list Page) : list string :=
  flat_map (fun p => match next_link p with Some u => [u] | None => [] end) ps.

(** All records of a sequence of pages, in order. *)
Definition all_records (ps : list Page) : list json :=
  List.concat (map records ps).

Definition get_events (urls : list string) : list Event :=
  map (fun u => Get u None) urls.

(** One turn of [list(gen)] with the fuel of the generator and of the rest of
    the loop kept apart. *)
Definition drain_from (f1 f2 : nat) (it : Gen) (acc : list json) : M (list json) :=
  step <- gen_next f1 it ;;
  match step with
  | (None, _) => ret acc
  | (Some row, it') => list_gen f2 it' (acc ++ [row])
  end.






(** *** Concrete inputs *)

Definition org : string := "https://org.crm.dynamics.com".

(** An HTTP 200 carrying a page. *)
Definition page_response (p : Page) : Response :=
  mkResponse 200
    (Some (JObj (("value", JArr (records p))
                 :: match next_link p with
                    | Some u => [("@odata.nextLink", JStr u)]
                    | None => []
                    end)))
    "".

Definition busy : Response := mkResponse 503 None "Service Unavailable".
Definition not_found : Response := mkResponse 404 None "Not Found".

Definition recipe_a : dict := [("a", JInt 1)].
Definition recipe_b : dict := [("b", JInt 2)].

(** The url of the first request for the entity set zz_Recipe. *)
Definition recipe_url : string :=
  build_entity_url org "zz_Recipe" None None (Some 5000).

(** *** The configuration as the specification reads it *)

(** The four required values: name of the value and key of its secret. *)
Definition required : list (string * string) :=
  [("client_id", "dataverse-client-id");
   ("client_secret", "dataverse-client-secret");
   ("tenant_id", "dataverse-tenant-id");
   ("dataverse_url", "dataverse-url")].

Definition nonempty (o : option string) : bool :=
  match o with
  | Some s => negb (String.eqb s "")
  | None => false
  end.

(** A value is supplied when the secret store holds a non-empty secret for it
    or its widget is filled. *)
Definition supplied (nb : Notebook) (f : string * string) : bool :=
  nonempty (secret nb (snd f)) || negb (String.eqb (widgets nb (fst f)) "").

(** The secret store is read as a whole: its values count only when the three
    credential secrets can all be read. *)
Definition store_usable (nb : Notebook) : bool :=
  match secret nb "dataverse-client-id", secret nb "dataverse-client-secret",
        secret nb "dataverse-tenant-id" with
  | Some _, Some _, Some _ => true
  | _, _, _ => false
  end.

Definition from_store (nb : Notebook) (key : string) : option string :=
  if store_usable nb then secret nb key else None.

(** The value [get_cfg] settles on: the store's when it counts and is
    non-empty, the widget's otherwise. *)
Definition resolved (nb : Notebook) (f : string * string) : string :=
  match from_store nb (snd f) with
  | Some s => if String.eqb s "" then widgets nb (fst f) else s
  | None => widgets nb (fst f)
  end.

Definition missing_fields (nb : Notebook) : list string :=
  map fst (filter (fun f => String.eqb (resolved nb f) "") required).

(** A notebook whose secret store lacks the tenant id only, which the widget
    supplies. *)
Definition partial_store (scope key : string) : option string :=
  if String.eqb key "dataverse-client-id" then Some "app-id"
  else if String.eqb key "dataverse-client-secret" then Some "app-secret"
  else if String.eqb key "dataverse-url" then Some org
  else None.

Definition partial_notebook : Notebook :=
  mkNotebook "kv" (Some partial_store)
    (fun name => if String.eqb name "tenant_id" then "tenant" else "").

(** *** The token provider as the specification reads it *)

(** The silent attempt returned nothing: [None], or a dict without content. *)
Definition returned_nothing (o : option dict) : bool :=
  match o with
  | Some (_ :: _) => false
  | _ => true
  end.

(** The final token result. *)
Definition token_result (app : ConfidentialClientApplication) (scope : string) : dict :=
  match acquire_token_silent app [scope] with
  | Some (kv :: d) => kv :: d
  | _ => acquire_token_for_client app [scope]
  end.

(** How many records the sampling loop takes from a stream that has them:
    [sample_rows], and one when that is less than one. *)
Definition sample_size (sample_rows : Z) : nat := Z.to_nat (Z.max 1 sample_rows).

(** *** The rest of the notebook *)

(** [DATAVERSE_URL.rstrip("/")]: the url without its trailing slashes. *)
Fixpoint rstrip_slash (s : string) : string :=
  match s with
  | EmptyString => EmptyString
  | String c t =>
      let t' := rstrip_slash t in
      if Ascii.eqb c "/" && String.eqb t' "" then EmptyString else String c t'
  end.

(** [RESOURCE = DATAVERSE_URL.rstrip("/")] and [SCOPE = f"{RESOURCE}/.default"]. *)
Definition RESOURCE_of (DATAVERSE_URL : string) : string := rstrip_slash DATAVERSE_URL.
Definition SCOPE_of (DATAVERSE_URL : string) : string :=
  (RESOURCE_of DATAVERSE_URL ++ "/.default")%string.

(** A run of [n] slashes. *)
Fixpoint slashes (n : nat) : string :=
  match n with
  | O => EmptyString
  | S n' => String "/" (slashes n')
  end.

(** [f"{RESOURCE}/api/data/{API_VER}/{entity_set}"] *)
Definition entity_base (RESOURCE entity_set : string) : string :=
  (RESOURCE ++ "/api/data/" ++ API_VER ++ "/" ++ entity_set)%string.

(** Whether [build_entity_url] is given a parameter that counts: a non-empty
    select list, a non-empty filter, a page size other than 0. *)
Definition has_params (select : option (list string)) (filter_ : option string)
    (top : option Z) : bool :=
  match select with Some (_ :: _) => true | _ => false end
  || match filter_ with Some f => negb (String.eqb f "") | None => false end
  || match top with Some t => negb (t =? 0) | None => false end.

(** What the last attempt of [dataverse_get] makes of its response. *)
Definition final_outcome (r : Response) : Res json :=
  if status_code r =? 200
  then match json_body r with Some j => Ok j | None => Raise JSONDecodeError end
  else Raise (GetFailed (status_code r) (details_of r)).

Definition total (l : list Z) : Z := fold_right Z.add 0 l.

(** [padded s s']: the script [s] is the script [s'] of final answers (a 200 or
    a fatal status each) with at most four responses of a retryable status
    put before each of them. *)
Inductive padded : list Response -> list Response -> Prop :=
| padded_nil : padded [] []
| padded_cons (pre : list Response) (r : Response) (s s' : list Response) :
    Forall (fun x => retryable (status_code x) = true) pre ->
    (List.length pre <= 4)%nat ->
    retryable (status_code r) = false ->
    padded s s' ->
    padded (pre ++ r :: s) (r :: s').

(** The computation [m] cannot tell an endpoint from a padded one: it returns
    or raises the same, and leaves scripts that are again padded. *)
Definition blind_to_padding {A} (m : M A) : Prop :=
  forall w w', padded (script w) (script w') ->
    fst (m w) = fst (m w') /\ padded (script (snd (m w))) (script (snd (m w'))).

(** The url of the request that follows the pages [ps] when each of them
    carries a link: the link of the last, or [url] itself before the first. *)
Definition next_url (url : string) (ps : list Page) : string :=
  last (url :: links ps) url.

(** The urls requested for the pages [ps], the first at [url]. *)
Definition page_urls (url : string) (ps : list Page) : list string :=
  removelast (url :: links ps).

(** A value [for] cannot iterate over. *)
Definition not_iterable (v : json) : bool :=
  match v with
  | JNull | JBool _ | JInt _ | JFloat _ _ => true
  | _ => false
  end.

(** A table is well formed when its column names are distinct and each of its
    rows has one cell per column. *)
Definition well_formed (tbl : Table) : Prop :=
  NoDup (columns tbl) /\
  Forall (fun row => List.length row = List.length (columns tbl)) (rows tbl).

(** *** What a pull may do *)

(** The link a parsed body carries, when it is an object with a text under
    [@odata.nextLink]. *)
Definition link_urls (j : json) : list string :=
  match j with
  | JObj d =>
      match lookup "@odata.nextLink" d with
      | Some (JStr u) => [u]
      | _ => []
      end
  | _ => []
  end.

(** The links the responses [used] carried. *)
Definition served_links (used : list Response) : list string :=
  flat_map (fun r => match json_body r with
                     | Some j => link_urls j
                     | None => []
                     end) used.

(** What a pull may log: a request without params at one of [urls], or a
    sleep of 1 to 30 seconds. *)
Definition fetch_event (urls : list string) (e : Event) : Prop :=
  match e with
  | Get u p => p = None /\ In u urls
  | Sleep s => 1 <= s <= 30
  | _ => False
  end.

(** Every request read one response, but for the request that found nothing
    to read. *)
Definition counted {A} (res : Res A) (used : list Response) (done : list Event) : Prop :=
  requests done = List.length used
  \/ (res = Raise ConnectionError /\ requests done = S (List.length used)).

(** The urls the generator may still request by itself. *)
Definition gen_urls (g : Gen) : list string :=
  match g with
  | GStart u => [u]
  | GRows _ data => link_urls data
  | GDone => []
  end.

(** [tracked urls m after]: run from any world, [m] reads a prefix of the
    script, extends the log by events of a pull at [urls] or at links it was
    served, counts its requests, and hands over a value whose own urls
    [after] are among those. *)
Definition tracked {A} (urls : list string) (m : M A) (after : A -> list string) : Prop :=
  forall w,
    exists used done,
      script w = used ++ script (snd (m w)) /\
      log (snd (m w)) = log w ++ done /\
      Forall (fetch_event (urls ++ served_links used)) done /\
      counted (fst (m w)) used done /\
      (forall a, fst (m w) = Ok a -> incl (after a) (urls ++ served_links used)).

(** The url a value is, when it is a text. *)
Definition value_url (v : json) : list string :=
  match v with
  | JStr u => [u]
  | _ => []
  end.

(** * Properties *)

(** ** The retry policy *)

Lemma retryable_not_200 (s : Z) : retryable s = true -> (s =? 200) = false.
Proof.
  intros H. destruct (Z.eqb_spec s 200) as [->|]; [discriminate H | reflexivity].
Qed.

Lemma retryable_iff (s : Z) :
  retryable s = true <-> In s [429; 500; 502; 503; 504].
Proof.
  unfold retryable. rewrite existsb_exists. split.
  - intros (x & Hin & Heq). apply Z.eqb_eq in Heq. now subst.
  - intros Hin. exists s. split; [assumption | apply Z.eqb_refl].
Qed.

Lemma backoff_delay_values (a : Z) :
  1 <= a -> backoff_delay a = if a <=? 5 then 2 ^ (a - 1) else 30.
Proof.
  intros Ha. unfold backoff_delay. rewrite Z.mul_1_l.
  destruct (Z.leb_spec a 5) as [Hle|Hgt].
  - assert (Hcases : a = 1 \/ a = 2 \/ a = 3 \/ a = 4 \/ a = 5) by lia.
    destruct Hcases as [->|[->|[->|[->| ->]]]]; reflexivity.
  - apply Z.min_l.
    assert (Hpow : 2 ^ 5 <= 2 ^ (a - 1)) by (apply Z.pow_le_mono_r; lia).
    change (2 ^ 5) with 32 in Hpow. lia.
Qed.

Lemma sleeps_app l1 l2 : sleeps (l1 ++ l2) = sleeps l1 ++ sleeps l2.
Proof. unfold sleeps. apply flat_map_app. Qed.

Lemma requests_app l1 l2 : requests (l1 ++ l2) = (requests l1 + requests l2)%nat.
Proof. unfold requests. now rewrite filter_app, length_app. Qed.

Lemma requests_retry_events k a url params :
  requests (retry_events k a url params) = k.
Proof.
  revert a. induction k as [|k IH]; intros a; [reflexivity|].
  unfold requests in *. simpl. now rewrite IH.
Qed.

Lemma sleeps_retry_events k a url params :
  sleeps (retry_events k a url params)
  = map (fun i => backoff_delay (a + Z.of_nat i)) (seq 0 k).
Proof.
  revert a. induction k as [|k IH]; intros a; [reflexivity|].
  simpl retry_events. unfold sleeps in *. simpl flat_map. rewrite IH.
  simpl. rewrite Z.add_0_r. f_equal.
  rewrite <- seq_shift, map_map. apply map_ext. intros i. f_equal. lia.
Qed.

(** One retried attempt: a retryable status costs a request and a sleep and
    hands over to the next attempt. *)
Lemma attempts_step_retry n a url params r rest l :
  retryable (status_code r) = true -> a <= 1024 ->
  attempts (S n) a url params (mkWorld (r :: rest) l)
  = attempts n (a + 1) url params
      (mkWorld rest (l ++ [Get url params; Sleep (backoff_delay a)])).
Proof.
  intros Hr Ha. simpl attempts. unfold bind at 1. unfold session_get. simpl.
  rewrite (retryable_not_200 _ Hr), Hr.
  unfold bind, _backoff.
  replace (1024 <=? a - 1) with false by (symmetry; apply Z.leb_gt; lia).
  unfold emit. simpl. now rewrite <- app_assoc.
Qed.

(** [k] retryable responses in a row are all retried. *)
Lemma attempts_retry pre : forall n a url params rest l,
  Forall (fun r => retryable (status_code r) = true) pre ->
  (List.length pre <= n)%nat ->
  a + Z.of_nat (List.length pre) <= 1025 ->
  attempts n a url params (mkWorld (pre ++ rest) l)
  = attempts (n - List.length pre) (a + Z.of_nat (List.length pre)) url params
      (mkWorld rest (l ++ retry_events (List.length pre) a url params)).
Proof.
  induction pre as [|r pre IH]; intros n a url params rest l Hall Hlen Ha.
  - simpl. now rewrite Nat.sub_0_r, Z.add_0_r, app_nil_r.
  - inversion Hall as [|? ? Hr Hall']; subst.
    destruct n as [|n]; [simpl in Hlen; lia|].
    change ((r :: pre) ++ rest) with (r :: (pre ++ rest)).
    rewrite attempts_step_retry by (try assumption; simpl List.length in Ha; lia).
    rewrite IH by (try assumption; simpl List.length in *; lia).
    simpl List.length. simpl retry_events.
    rewrite <- app_assoc. simpl app.
    replace (a + 1 + Z.of_nat (List.length pre))
      with (a + Z.of_nat (S (List.length pre))) by lia.
    reflexivity.
Qed.

(** The attempt that ends the loop: a 200 returns, a fatal status raises. *)
Lemma attempts_step_final n a url params r rest l :
  retryable (status_code r) = false ->
  attempts (S n) a url params (mkWorld (r :: rest) l)
  = (if status_code r =? 200
     then match json_body r with Some j => Ok j | None => Raise JSONDecodeError end
     else Raise (GetFailed (status_code r) (details_of r)),
     mkWorld rest (l ++ [Get url params])).
Proof.
  intros Hr. simpl attempts. unfold bind, session_get. simpl.
  destruct (status_code r =? 200).
  - unfold r_json. now destruct (json_body r).
  - now rewrite Hr.
Qed.

Lemma attempt_numbers_shift k :
  map (fun i => backoff_delay (1 + Z.of_nat i)) (seq 0 k)
  = map backoff_delay (attempt_numbers k).
Proof.
  unfold attempt_numbers. rewrite <- seq_shift, !map_map.
  apply map_ext. intros i. f_equal. lia.
Qed.

Lemma Forall_retryable pre :
  Forall (fun r => In (status_code r) [429; 500; 502; 503; 504]) pre ->
  Forall (fun r => retryable (status_code r) = true) pre.
Proof.
  apply Forall_impl. intros r. apply retryable_iff.
Qed.

Lemma not_retryable (s : Z) :
  ~ In s [429; 500; 502; 503; 504] -> retryable s = false.
Proof.
  intros H. destruct (retryable s) eqn:E; [|reflexivity].
  apply retryable_iff in E. contradiction.
Qed.

(** Past attempt 1024 the power no longer converts to a float: [_backoff]
    raises instead of sleeping. *)
Lemma backoff_overflow (attempt : Z) (w : World) :
  1025 <= attempt -> _backoff attempt w = (Raise OverflowError, w).
Proof.
  intros H. unfold _backoff.
  replace (1024 <=? attempt - 1) with true by (symmetry; apply Z.leb_le; lia).
  reflexivity.
Qed.

(** X17.  Let the endpoint answer with the responses [pre], all of a status in
    {429, 500, 502, 503, 504} and at most 1024 of them (the attempts for which
    the backoff is computed without overflow).  Then [dataverse_get] retries
    each of them: one request per response, each followed by a sleep of
    [min(30, 2^(attempt-1))] seconds, that is 1, 2, 4, 8, 16 and then 30.  If
    the next response has status 200, its parsed body is returned (what
    [r.json()] gives); if it has any other status outside the set, the call
    fails at once without retrying; and if [pre] holds [max_retries]
    responses, the call fails with the retries-exceeded error after exactly
    [max_retries] requests. *)
Theorem dataverse_get_retry_policy
    (url : string) (params : option (list (string * string))) (max_retries : Z)
    (pre rest : list Response) (l : list Event) :
  (List.length pre <= 1024)%nat ->
  Forall (fun r => In (status_code r) [429; 500; 502; 503; 504]) pre ->
  let k := List.length pre in
  let retried := retry_events k 1 url params in
  requests retried = k /\
  sleeps retried = map backoff_delay (attempt_numbers k) /\
  (forall a, 1 <= a ->
     backoff_delay a = Z.min 30 (2 ^ (a - 1))
     /\ backoff_delay a = if a <=? 5 then 2 ^ (a - 1) else 30) /\
  map backoff_delay [1; 2; 3; 4; 5; 6; 7] = [1; 2; 4; 8; 16; 30; 30] /\
  (forall r, Z.of_nat k < max_retries -> status_code r = 200 ->
     dataverse_get url params max_retries (mkWorld (pre ++ r :: rest) l)
     = (match json_body r with
        | Some j => Ok j
        | None => Raise JSONDecodeError
        end,
        mkWorld rest (l ++ retried ++ [Get url params]))) /\
  (forall r, Z.of_nat k < max_retries -> status_code r <> 200 ->
     ~ In (status_code r) [429; 500; 502; 503; 504] ->
     dataverse_get url params max_retries (mkWorld (pre ++ r :: rest) l)
     = (Raise (GetFailed (status_code r) (details_of r)),
        mkWorld rest (l ++ retried ++ [Get url params]))) /\
  (Z.of_nat k = max_retries ->
     dataverse_get url params max_retries (mkWorld (pre ++ rest) l)
     = (Raise ExceededRetries, mkWorld rest (l ++ retried))).
Proof.
  intros Hmax Hpre k retried. apply Forall_retryable in Hpre.
  split; [apply requests_retry_events|].
  split; [unfold retried; rewrite sleeps_retry_events; apply attempt_numbers_shift|].
  split; [intros a Ha; split;
          [unfold backoff_delay; now rewrite Z.mul_1_l | now apply backoff_delay_values]|].
  split; [reflexivity|].
  assert (Hrun : forall tail, Z.of_nat k <= max_retries ->
            dataverse_get url params max_retries (mkWorld (pre ++ tail) l)
            = attempts (Z.to_nat max_retries - k) (1 + Z.of_nat k) url params
                (mkWorld tail (l ++ retried))).
  { intros tail Hk. unfold dataverse_get. apply attempts_retry; [assumption| |]; fold k; lia. }
  split; [|split].
  - intros r Hk H200. rewrite Hrun by lia.
    destruct (Z.to_nat max_retries - k)%nat as [|n] eqn:En; [lia|].
    rewrite attempts_step_final, H200 by (rewrite H200; reflexivity).
    simpl. now rewrite <- app_assoc.
  - intros r Hk Hnot200 Hfatal. rewrite Hrun by lia.
    destruct (Z.to_nat max_retries - k)%nat as [|n] eqn:En; [lia|].
    rewrite attempts_step_final by now apply not_retryable.
    apply Z.eqb_neq in Hnot200. rewrite Hnot200. now rewrite <- app_assoc.
  - intros Hk. rewrite Hrun by lia.
    replace (Z.to_nat max_retries - k)%nat with O by lia. reflexivity.
Qed.

(** C4.  [dataverse_get(url, max_retries=1025)] against an endpoint that
    answers 503 to each of 1025 requests.  Every attempt returns a status of
    the set {429, 500, 502, 503, 504}, so the call was to fail with the
    retries-exceeded error after 1025 attempts and as many backoffs, the last
    ones of 30 seconds.  It does not: the first 1024 attempts are retried, and
    the backoff of attempt 1025 computes [1.0 * 2**1024] before it applies the
    cap, which raises OverflowError.  The call ends with that error, after
    1025 requests and 1024 sleeps, the last of them of 30 seconds.  With 1024
    attempts allowed the same endpoint gives the retries-exceeded error. *)
Theorem dataverse_get_overflows_at_attempt_1025 :
  let out := dataverse_get recipe_url None 1025 (mkWorld (repeat busy 1025) []) in
  Forall (fun r => In (status_code r) [429; 500; 502; 503; 504]) (repeat busy 1025) /\
  fst out = Raise OverflowError /\
  fst out <> Raise ExceededRetries /\
  script (snd out) = [] /\
  requests (log (snd out)) = 1025%nat /\
  List.length (sleeps (log (snd out))) = 1024%nat /\
  last (sleeps (log (snd out))) 0 = 30 /\
  fst (dataverse_get recipe_url None 1024 (mkWorld (repeat busy 1025) []))
  = Raise ExceededRetries.
Proof.
  assert (Hbusy : Forall (fun r => retryable (status_code r) = true) (repeat busy 1024)).
  { apply Forall_forall. intros r Hr. apply repeat_spec in Hr. now subst. }
  assert (Hrun : dataverse_get recipe_url None 1025 (mkWorld (repeat busy 1025) [])
                 = (Raise OverflowError,
                    mkWorld [] (retry_events 1024 1 recipe_url None
                                ++ [Get recipe_url None]))).
  { unfold dataverse_get.
    change (repeat busy 1025) with (repeat busy 1024 ++ [busy]).
    rewrite attempts_retry by (try exact Hbusy; rewrite repeat_length; lia).
    rewrite repeat_length.
    change (Z.to_nat 1025 - 1024)%nat with 1%nat.
    change (1 + Z.of_nat 1024) with 1025.
    cbn [attempts]. unfold bind at 1. unfold session_get. cbn [script log].
    change (status_code busy =? 200) with false.
    change (retryable (status_code busy)) with true.
    cbv beta iota. unfold bind at 1.
    rewrite backoff_overflow by lia. reflexivity. }
  cbv zeta. rewrite Hrun. cbn [fst snd script log].
  split.
  { apply Forall_forall. intros r Hr. apply repeat_spec in Hr. subst.
    apply retryable_iff. reflexivity. }
  split; [reflexivity|]. split; [discriminate|]. split; [reflexivity|].
  split; [rewrite requests_app, requests_retry_events; reflexivity|].
  split.
  { rewrite sleeps_app, sleeps_retry_events, app_nil_r, length_map, length_seq.
    reflexivity. }
  split.
  { rewrite sleeps_app, sleeps_retry_events, app_nil_r.
    change (seq 0 1024) with (seq 0 1023 ++ [1023%nat]).
    rewrite map_app.
    change (map (fun i => backoff_delay (1 + Z.of_nat i)) [1023%nat])
      with [backoff_delay 1024].
    rewrite last_last. reflexivity. }
  unfold dataverse_get.
  change (repeat busy 1025) with (repeat busy 1024 ++ [busy]).
  rewrite attempts_retry by (try exact Hbusy; rewrite repeat_length; lia).
  rewrite repeat_length. reflexivity.
Qed.

(** C5.  A first response whose status is neither 200 nor one of
    {429, 500, 502, 503, 504} makes [dataverse_get] fail at once: the log grows
    by that single request and by no sleep, nothing further is read from the
    endpoint, and the error carries the status with the parsed body when
    [r.json()] succeeds and the text of the response otherwise. *)
Theorem dataverse_get_fatal_status
    (url : string) (params : option (list (string * string))) (max_retries : Z)
    (r : Response) (rest : list Response) (l : list Event) :
  1 <= max_retries ->
  status_code r <> 200 ->
  ~ In (status_code r) [429; 500; 502; 503; 504] ->
  let out := dataverse_get url params max_retries (mkWorld (r :: rest) l) in
  fst out = Raise (GetFailed (status_code r)
                     match json_body r with
                     | Some j => inl j
                     | None => inr (text r)
                     end) /\
  script (snd out) = rest /\
  exists done, log (snd out) = l ++ done /\
    done = [Get url params] /\ requests done = 1%nat /\ sleeps done = [].
Proof.
  intros Hmax Hnot200 Hfatal out. subst out. unfold dataverse_get.
  destruct (Z.to_nat max_retries) as [|n] eqn:En; [lia|].
  rewrite attempts_step_final by now apply not_retryable.
  apply Z.eqb_neq in Hnot200. rewrite Hnot200. simpl.
  split; [reflexivity|]. split; [reflexivity|].
  exists [Get url params]. repeat split; reflexivity.
Qed.

(** ** Pagination *)

Lemma dataverse_get_200 url r rest l :
  status_code r = 200 ->
  dataverse_get url None 5 (mkWorld (r :: rest) l)
  = (match json_body r with Some j => Ok j | None => Raise JSONDecodeError end,
     mkWorld rest (l ++ [Get url None])).
Proof.
  intros H200. unfold dataverse_get. change (Z.to_nat 5) with 5%nat.
  rewrite attempts_step_final, H200 by (rewrite H200; reflexivity).
  reflexivity.
Qed.

(** The generator at its program points. *)
Lemma gen_next_row f row rows data w :
  gen_next (S f) (GRows (row :: rows) data) w = (Ok (Some row, GRows rows data), w).
Proof. reflexivity. Qed.

Lemma gen_next_end f d w :
  truthy (match lookup "@odata.nextLink" d with Some v => v | None => JNull end) = false ->
  gen_next (S f) (GRows [] (JObj d)) w = (Ok (None, GDone), w).
Proof.
  intros H. simpl. unfold bind, py_get, ret. now rewrite H.
Qed.

Lemma gen_next_follow f d u w :
  lookup "@odata.nextLink" d = Some (JStr u) -> u <> "" ->
  gen_next (S f) (GRows [] (JObj d)) w = gen_next f (GStart u) w.
Proof.
  intros Hl Hu. simpl. unfold bind, py_get, ret. rewrite Hl. simpl.
  apply String.eqb_neq in Hu. now rewrite Hu.
Qed.

Lemma gen_next_start f url r d rows rest l :
  status_code r = 200 -> json_body r = Some (JObj d) ->
  py_iter (match lookup "value" d with Some v => v | None => JArr [] end)
    (mkWorld rest (l ++ [Get url None]))
  = (Ok rows, mkWorld rest (l ++ [Get url None])) ->
  gen_next (S f) (GStart url) (mkWorld (r :: rest) l)
  = gen_next f (GRows rows (JObj d)) (mkWorld rest (l ++ [Get url None])).
Proof.
  intros H200 Hbody Hrows. simpl. unfold bind at 1.
  rewrite dataverse_get_200, Hbody by assumption.
  unfold bind at 1. unfold py_get at 1, ret at 1.
  unfold bind at 1. now rewrite Hrows.
Qed.

Lemma list_gen_S f it acc : list_gen (S f) it acc = drain_from f f it acc.
Proof. reflexivity. Qed.

Lemma drain_from_row f1 f2 row rows data acc w :
  drain_from (S f1) (S f2) (GRows (row :: rows) data) acc w
  = drain_from f2 f2 (GRows rows data) (acc ++ [row]) w.
Proof. reflexivity. Qed.

Lemma drain_from_end f1 f2 d acc w :
  truthy (match lookup "@odata.nextLink" d with Some v => v | None => JNull end) = false ->
  drain_from (S f1) f2 (GRows [] (JObj d)) acc w = (Ok acc, w).
Proof.
  intros H. unfold drain_from, bind. rewrite gen_next_end by assumption.
  reflexivity.
Qed.

Lemma drain_from_page f1 f2 url r d rows rest l acc :
  status_code r = 200 -> json_body r = Some (JObj d) ->
  match lookup "value" d with Some v => v | None => JArr [] end = JArr rows ->
  drain_from (S f1) f2 (GStart url) acc (mkWorld (r :: rest) l)
  = drain_from f1 f2 (GRows rows (JObj d)) acc (mkWorld rest (l ++ [Get url None])).
Proof.
  intros H200 Hbody Hvalue. unfold drain_from, bind.
  rewrite (gen_next_start _ _ _ d rows); try assumption; [reflexivity|].
  now rewrite Hvalue.
Qed.

Lemma drain_from_follow f1 f2 d u acc w :
  lookup "@odata.nextLink" d = Some (JStr u) -> u <> "" ->
  drain_from (S f1) f2 (GRows [] (JObj d)) acc w = drain_from f1 f2 (GStart u) acc w.
Proof.
  intros Hl Hu. unfold drain_from, bind. now rewrite (gen_next_follow _ _ u).
Qed.

Lemma drain_from_start f1 f2 url r p rest l acc :
  serves r p ->
  exists d, json_body r = Some (JObj d) /\ link_of d p /\
    drain_from (S f1) f2 (GStart url) acc (mkWorld (r :: rest) l)
    = drain_from f1 f2 (GRows (records p) (JObj d)) acc
        (mkWorld rest (l ++ [Get url None])).
Proof.
  intros (H200 & d & Hbody & Hvalue & Hlink). exists d.
  split; [assumption|]. split; [exact Hlink|].
  apply drain_from_page; try assumption. now rewrite Hvalue.
Qed.

(** The rows of the current page are handed over one by one. *)
Lemma drain_rows rows : forall acc f1 f2 data w,
  (Nat.min 1 (List.length rows) <= f1)%nat ->
  (List.length rows <= f2)%nat ->
  exists g1 g2,
    (Nat.min f1 (f2 - List.length rows) <= g1)%nat /\
    (f2 - List.length rows <= g2)%nat /\
    drain_from f1 f2 (GRows rows data) acc w
    = drain_from g1 g2 (GRows [] data) (acc ++ rows) w.
Proof.
  induction rows as [|row t IH]; intros acc f1 f2 data w Hf1 Hf2.
  - exists f1, f2. rewrite app_nil_r.
    split; [lia|]. split; [lia | reflexivity].
  - simpl List.length in *.
    destruct f1 as [|f1]; [simpl in Hf1; lia|].
    destruct f2 as [|f2]; [lia|].
    rewrite drain_from_row.
    destruct (IH (acc ++ [row]) f2 f2 data w) as (g1 & g2 & Hg1 & Hg2 & Heq);
      [destruct t; simpl in *; lia | lia |].
    exists g1, g2. rewrite Heq, <- app_assoc.
    split; [lia|]. split; [lia | reflexivity].
Qed.

Lemma all_records_cons p ps : all_records (p :: ps) = records p ++ all_records ps.
Proof. reflexivity. Qed.

(** From the end of a page on, the remaining pages are requested in order,
    each at the link of the page before it. *)
Lemma drain_chain ps : forall rs p d acc rest l f1 f2,
  Forall2 serves rs ps ->
  chained (p :: ps) ->
  link_of d p ->
  (2 * List.length ps + 1 <= f1)%nat ->
  (List.length (all_records ps) + 2 * List.length ps + 1 <= f2)%nat ->
  drain_from f1 f2 (GRows [] (JObj d)) acc (mkWorld (rs ++ rest) l)
  = (Ok (acc ++ all_records ps),
     mkWorld rest (l ++ get_events (links (p :: ps)))).
Proof.
  induction ps as [|p2 ps IH]; intros rs p d acc rest l f1 f2 Hserve Hchain Hlink Hf1 Hf2.
  - inversion Hserve; subst. simpl in Hchain. unfold link_of in Hlink.
    rewrite Hchain in Hlink.
    destruct f1 as [|f1]; [simpl in Hf1; lia|].
    rewrite drain_from_end by now rewrite Hlink.
    unfold links, all_records. simpl. rewrite Hchain. simpl.
    now rewrite !app_nil_r.
  - inversion Hserve as [|r2 ? rs' ? Hr2 Hrs']; subst.
    destruct Hchain as [Hsome Hchain]. unfold link_of in Hlink.
    destruct (next_link p) as [u|] eqn:Hp; [|contradiction].
    destruct Hlink as [Hl Hu].
    simpl List.length in *. rewrite all_records_cons, length_app in Hf2.
    destruct f1 as [|[|f1]]; [lia | lia |].
    rewrite (drain_from_follow _ _ _ u) by assumption.
    change ((r2 :: rs') ++ rest) with (r2 :: (rs' ++ rest)).
    destruct (drain_from_start f1 f2 u r2 p2 (rs' ++ rest) l acc Hr2)
      as (d2 & _ & Hlink2 & ->).
    destruct (drain_rows (records p2) acc f1 f2 (JObj d2)
                (mkWorld (rs' ++ rest) (l ++ [Get u None])))
      as (g1 & g2 & Hg1 & Hg2 & ->); [lia | lia |].
    rewrite (IH rs' p2 d2) by (try assumption; lia).
    rewrite all_records_cons, <- !app_assoc.
    unfold links. simpl flat_map. rewrite Hp. reflexivity.
Qed.

Lemma links_length ps : chained ps -> S (List.length (links ps)) = List.length ps.
Proof.
  induction ps as [|p ps IH]; [intros []|].
  destruct ps as [|p2 ps].
  - simpl. intros ->. reflexivity.
  - intros [Hsome Hchain]. specialize (IH Hchain).
    unfold links in *. simpl flat_map in *.
    destruct (next_link p); [|contradiction].
    simpl List.length in *. now rewrite IH.
Qed.

Lemma requests_get_events urls : requests (get_events urls) = List.length urls.
Proof.
  unfold requests, get_events. induction urls as [|u t IH]; [reflexivity|].
  simpl. now rewrite IH.
Qed.

(** C3.  Let the endpoint answer the pages P1..Pn, each with status 200 at the
    first attempt, every page but the last carrying an [@odata.nextLink] and
    the last carrying none.  Then [list(fetch_all(...))] returns the records of
    P1..Pn concatenated in order, consumes exactly those n responses, and
    issues exactly n requests: the first at the url built for the entity set,
    each further one at the link of the page before it. *)
Theorem fetch_all_pagination
    (RESOURCE entity_set : string) (select : option (list string))
    (filter_ : option string) (page_size : Z)
    (ps : list Page) (rs rest : list Response) (l : list Event) (fuel : nat) :
  chained ps ->
  Forall2 serves rs ps ->
  (List.length (all_records ps) + 2 * List.length ps + 1 <= fuel)%nat ->
  let url := build_entity_url RESOURCE entity_set select filter_ (Some page_size) in
  let out := list_gen fuel (fetch_all RESOURCE entity_set select filter_ page_size) []
               (mkWorld (rs ++ rest) l) in
  fst out = Ok (all_records ps) /\
  script (snd out) = rest /\
  log (snd out) = l ++ get_events (url :: links ps) /\
  requests (get_events (url :: links ps)) = List.length ps.
Proof.
  intros Hchain Hserve Hfuel url out.
  assert (Hn : requests (get_events (url :: links ps)) = List.length ps).
  { rewrite requests_get_events. simpl. now apply links_length. }
  destruct ps as [|p ps]; [destruct Hchain|].
  inversion Hserve as [|r ? rs' ? Hr Hrs']; subst.
  simpl List.length in Hfuel. rewrite all_records_cons, length_app in Hfuel.
  subst out. unfold fetch_all. fold url.
  destruct fuel as [|[|fuel]]; [lia | lia |].
  rewrite list_gen_S.
  change ((r :: rs') ++ rest) with (r :: (rs' ++ rest)).
  destruct (drain_from_start fuel (S fuel) url r p (rs' ++ rest) l [] Hr)
    as (d & _ & Hlink & ->).
  destruct (drain_rows (records p) [] fuel (S fuel) (JObj d)
              (mkWorld (rs' ++ rest) (l ++ [Get url None])))
    as (g1 & g2 & Hg1 & Hg2 & ->); [lia | lia |].
  rewrite (drain_chain ps rs' p d) by (try assumption; lia).
  simpl. rewrite <- app_assoc. repeat split; try reflexivity. exact Hn.
Qed.

(** A single page without a link: one request, its rows, the end. *)
Lemma list_gen_single_page url r d recs rest l fuel :
  status_code r = 200 -> json_body r = Some (JObj d) ->
  match lookup "value" d with Some v => v | None => JArr [] end = JArr recs ->
  truthy (match lookup "@odata.nextLink" d with Some v => v | None => JNull end) = false ->
  (List.length recs + 3 <= fuel)%nat ->
  list_gen fuel (GStart url) [] (mkWorld (r :: rest) l)
  = (Ok recs, mkWorld rest (l ++ [Get url None])).
Proof.
  intros H200 Hbody Hvalue Hfalsy Hfuel.
  destruct fuel as [|[|fuel]]; [lia | lia |].
  rewrite list_gen_S.
  rewrite (drain_from_page _ _ _ _ d recs) by assumption.
  destruct (drain_rows recs [] fuel (S fuel) (JObj d)
              (mkWorld rest (l ++ [Get url None])))
    as (g1 & g2 & Hg1 & Hg2 & ->); [lia | lia |].
  destruct g1 as [|g1]; [lia|].
  now rewrite drain_from_end by assumption.
Qed.

(** C10.  Let the next response be an HTTP 200 whose body is a JSON object.
    If the object has no [value] key, the page is an empty one: the generator
    yields nothing from it and goes on to the test of the link.  If its
    [@odata.nextLink] is absent or the empty string, the generator stops after
    the rows of the page without a further request.  In both cases nothing is
    raised: with both, [list(fetch_all(...))] is the empty list after one
    request, and with a [value] array and no link it is that array. *)
Theorem fetch_all_tolerates_missing_keys
    (RESOURCE entity_set : string) (select : option (list string))
    (filter_ : option string) (page_size : Z)
    (r : Response) (d : dict) (rest : list Response) (l : list Event) :
  status_code r = 200 ->
  json_body r = Some (JObj d) ->
  let url := build_entity_url RESOURCE entity_set select filter_ (Some page_size) in
  let it := fetch_all RESOURCE entity_set select filter_ page_size in
  let w := mkWorld (r :: rest) l in
  let w' := mkWorld rest (l ++ [Get url None]) in
  let no_link := lookup "@odata.nextLink" d = None
                 \/ lookup "@odata.nextLink" d = Some (JStr "") in
  (lookup "value" d = None ->
     forall f, gen_next (S f) it w = gen_next f (GRows [] (JObj d)) w') /\
  (no_link ->
     forall f w1, gen_next (S f) (GRows [] (JObj d)) w1 = (Ok (None, GDone), w1)) /\
  (lookup "value" d = None -> no_link ->
     forall fuel, (3 <= fuel)%nat -> list_gen fuel it [] w = (Ok [], w')) /\
  (forall recs, lookup "value" d = Some (JArr recs) -> no_link ->
     forall fuel, (List.length recs + 3 <= fuel)%nat ->
       list_gen fuel it [] w = (Ok recs, w')).
Proof.
  intros H200 Hbody url it w w' no_link.
  assert (Hfalsy : no_link ->
            truthy (match lookup "@odata.nextLink" d with
                    | Some v => v | None => JNull end) = false).
  { intros [-> | ->]; reflexivity. }
  assert (Hlist : forall recs,
            match lookup "value" d with Some v => v | None => JArr [] end = JArr recs ->
            no_link -> forall fuel, (List.length recs + 3 <= fuel)%nat ->
            list_gen fuel it [] w = (Ok recs, w')).
  { intros recs Hvalue Hno fuel Hfuel. subst it w w'. unfold fetch_all. fold url.
    apply (list_gen_single_page url r d); auto. }
  split; [|split; [|split]].
  - intros Hvalue f. subst it w. unfold fetch_all. fold url.
    apply gen_next_start; try assumption. now rewrite Hvalue.
  - intros Hno f w1. apply gen_next_end. auto.
  - intros Hvalue Hno fuel Hfuel. apply (Hlist []); [now rewrite Hvalue | assumption | simpl; lia].
  - intros recs Hvalue Hno fuel Hfuel. apply Hlist; [now rewrite Hvalue | assumption | lia].
Qed.

(** ** Materialisation *)

(** [list(gen)] only ever appends to what it has collected. *)
Lemma list_gen_extends fuel : forall it acc w res w',
  list_gen fuel it acc w = (Ok res, w') -> exists more, res = acc ++ more.
Proof.
  induction fuel as [|f IH]; intros it acc w res w' H; [discriminate H|].
  simpl in H. unfold bind in H.
  destruct (gen_next f it w) as [[[[row|] it']|e| |] w1]; try discriminate H.
  - apply IH in H. destruct H as [more ->].
    exists (row :: more). now rewrite <- app_assoc.
  - inversion H; subst. exists []. now rewrite app_nil_r.
Qed.

(** An empty [list(gen)] means that the generator ended at its first turn. *)
Lemma list_gen_empty fuel it w w' :
  list_gen fuel it [] w = (Ok [], w') ->
  exists f it', fuel = S f /\ gen_next f it w = (Ok (None, it'), w').
Proof.
  destruct fuel as [|f]; [discriminate|]. intros H.
  exists f. simpl in H. unfold bind in H.
  destruct (gen_next f it w) as [[[[row|] it']|e| |] w1] eqn:E; try discriminate H.
  - apply list_gen_extends in H. destruct H as [more H].
    destruct more; discriminate H.
  - inversion H; subst. now exists it'.
Qed.

(** C6.  When the entity set returns no record, that is when
    [list(fetch_all(...))] is the empty list, [dataverse_to_spark] returns the
    empty table, with no row and no column, raises nothing and leaves the
    endpoint and the log as that single walk over the pages left them. *)
Theorem dataverse_to_spark_empty_stream
    (fuel : nat) (RESOURCE entity_set : string) (select : option (list string))
    (filter_ : option string) (sample_rows : Z) (w w' : World) :
  list_gen fuel (fetch_all RESOURCE entity_set select filter_ 5000) [] w = (Ok [], w') ->
  dataverse_to_spark fuel RESOURCE entity_set select filter_ sample_rows w
  = (Ok empty_table, w')
  /\ columns empty_table = [] /\ rows empty_table = [].
Proof.
  intros H. apply list_gen_empty in H. destruct H as (f & it' & -> & Hnext).
  split; [|split; reflexivity].
  unfold dataverse_to_spark. unfold bind at 1. simpl take_sample.
  unfold bind at 1. rewrite Hnext. reflexivity.
Qed.

(** *** Columns and rows of the frames *)



Lemma in_existsb c cols : existsb (String.eqb c) cols = true <-> In c cols.
Proof.
  rewrite existsb_exists. split.
  - intros (x & Hin & Heq). apply String.eqb_eq in Heq. now subst.
  - intros H. exists c. split; [assumption | apply String.eqb_refl].
Qed.









Lemma add_keys_NoDup d : forall cols, NoDup cols -> NoDup (add_keys cols d).
Proof.
  unfold add_keys. induction d as [|[k v] t IH]; intros cols Hcols; simpl; [assumption|].
  apply IH. destruct (existsb (String.eqb k) cols) eqn:E; [assumption|].
  apply NoDup_app; [assumption | repeat constructor; intros [] |].
  intros x Hx [<-|[]]. apply in_existsb in Hx. congruence.
Qed.

Lemma frame_columns_NoDup flat : NoDup (frame_columns flat).
Proof.
  unfold frame_columns. generalize (NoDup_nil string). generalize (@nil string).
  induction flat as [|d t IH]; intros cols Hcols; simpl; [assumption|].
  apply IH. now apply add_keys_NoDup.
Qed.

Lemma frame_well_formed records : well_formed (frame records).
Proof.
  split; simpl; [apply frame_columns_NoDup|].
  apply Forall_map, Forall_forall. intros d _. apply length_map.
Qed.

Lemma unionByName_well_formed sdf sdf2 :
  NoDup (columns sdf) -> NoDup (columns sdf2) -> well_formed (unionByName sdf sdf2).
Proof.
  intros H1 H2. split; simpl.
  - apply NoDup_app; [assumption | now apply NoDup_filter |].
    intros c Hc Hin. apply filter_In in Hin. destruct Hin as [_ Hnot].
    apply in_existsb in Hc. rewrite Hc in Hnot. discriminate Hnot.
  - apply Forall_app. split; apply Forall_map, Forall_forall; intros row _;
      apply length_map.
Qed.

(** *** The row count on a stream of one page *)

Lemma as_records_map (rs : list dict) : as_records (map JObj rs) = Some rs.
Proof.
  induction rs as [|r rs IH]; [reflexivity|]. simpl. now rewrite IH.
Qed.

Lemma frame_of_records (rs : list dict) w : frame_of (map JObj rs) w = (Ok (frame rs), w).
Proof. unfold frame_of. now rewrite as_records_map. Qed.

Lemma take_sample_S f it sample sample_rows :
  take_sample (S f) it sample sample_rows
  = (step <- gen_next f it ;;
     match step with
     | (None, _) => ret sample
     | (Some row, it') =>
         if Z.of_nat (List.length (sample ++ [row])) >=? sample_rows
         then ret (sample ++ [row])
         else take_sample f it' (sample ++ [row]) sample_rows
     end).
Proof. reflexivity. Qed.

(** The sampling loop inside a page without a link: it takes rows until the
    sample holds [sample_rows] of them, and at least one. *)
Lemma take_sample_rows d sample_rows w recs : forall acc fuel,
  lookup "@odata.nextLink" d = None ->
  (List.length recs + 2 <= fuel)%nat ->
  take_sample fuel (GRows recs (JObj d)) acc sample_rows w
  = (Ok (acc ++ firstn (sample_size (sample_rows - Z.of_nat (List.length acc))) recs), w).
Proof.
  induction recs as [|row tl IH]; intros acc fuel Hlink Hfuel;
    cbn [List.length] in Hfuel; destruct fuel as [|[|fuel]]; try lia;
    rewrite take_sample_S; unfold bind at 1.
  - rewrite gen_next_end by now rewrite Hlink.
    rewrite firstn_nil, app_nil_r. reflexivity.
  - rewrite gen_next_row. cbv beta iota.
    rewrite length_app. cbn [List.length]. rewrite Z.geb_leb.
    destruct (Z.leb_spec sample_rows (Z.of_nat (List.length acc + 1))) as [Hle|Hgt].
    + unfold sample_size.
      replace (Z.to_nat (Z.max 1 (sample_rows - Z.of_nat (List.length acc)))) with 1%nat by lia.
      reflexivity.
    + rewrite IH by (try assumption; lia).
      rewrite length_app. cbn [List.length]. unfold sample_size.
      replace (Z.to_nat (Z.max 1 (sample_rows - Z.of_nat (List.length acc))))
        with (S (Z.to_nat (Z.max 1 (sample_rows - Z.of_nat (List.length acc + 1))))) by lia.
      cbn [firstn]. now rewrite <- app_assoc.
Qed.

(** On an entity set of one page, served to each walk, the table has a row
    for every sampled record and a further row for every record of the
    stream, the sampled ones again among them. *)
Lemma dataverse_to_spark_single_page_rows
    (RESOURCE entity_set : string) (select : option (list string))
    (filter_ : option string) (sample_rows : Z) (rs : list dict)
    (resp : Response) (rest : list Response) (l : list Event) (fuel : nat) :
  rs <> [] ->
  serves resp (mkPage (map JObj rs) None) ->
  (List.length rs + 3 <= fuel)%nat ->
  let url := build_entity_url RESOURCE entity_set select filter_ (Some 5000) in
  let sample := firstn (sample_size sample_rows) rs in
  dataverse_to_spark fuel RESOURCE entity_set select filter_ sample_rows
    (mkWorld (resp :: resp :: rest) l)
  = (Ok (unionByName (frame sample) (frame rs)),
     mkWorld rest (l ++ [Get url None; Get url None]))
  /\ List.length (rows (unionByName (frame sample) (frame rs)))
     = (Nat.min (sample_size sample_rows) (List.length rs) + List.length rs)%nat.
Proof.
  intros Hne (H200 & d & Hbody & Hvalue & Hlink) Hfuel url sample.
  simpl in Hvalue, Hlink.
  destruct rs as [|r rs]; [contradiction|]. simpl List.length in Hfuel.
  assert (Hsample : take_sample fuel (GStart url) [] sample_rows
                      (mkWorld (resp :: resp :: rest) l)
                    = (Ok (map JObj sample), mkWorld (resp :: rest) (l ++ [Get url None]))).
  { destruct fuel as [|[|[|fuel]]]; try lia.
    rewrite take_sample_S. unfold bind at 1.
    rewrite (gen_next_start _ _ _ d (map JObj (r :: rs)))
      by (try assumption; now rewrite Hvalue).
    cbn [map]. rewrite gen_next_row. cbv beta iota. cbn [app List.length].
    subst sample. unfold sample_size. rewrite Z.geb_leb.
    destruct (Z.leb_spec sample_rows (Z.of_nat 1)) as [Hle|Hgt].
    - replace (Z.to_nat (Z.max 1 sample_rows)) with 1%nat by lia. reflexivity.
    - rewrite take_sample_rows by (try assumption; rewrite length_map; unfold dict in *; lia).
      simpl List.length. unfold sample_size.
      replace (Z.to_nat (Z.max 1 sample_rows))
        with (S (Z.to_nat (Z.max 1 (sample_rows - Z.of_nat 1)))) by lia.
      cbn [firstn map app]. now rewrite firstn_map. }
  assert (Hcons : exists tl, sample = r :: tl).
  { subst sample. unfold sample_size.
    destruct (Z.to_nat (Z.max 1 sample_rows)) as [|k] eqn:E; [lia|].
    simpl. eauto. }
  split.
  - unfold dataverse_to_spark, fetch_all. fold url. unfold bind at 1.
    rewrite Hsample. destruct Hcons as [tl Htl]. rewrite Htl. cbn [map].
    unfold bind at 1.
    rewrite (frame_of_records (r :: tl)).
    unfold bind at 1.
    rewrite (list_gen_single_page url resp d (map JObj (r :: rs)))
      by (try assumption; try (now rewrite Hvalue); try (now rewrite Hlink);
          rewrite length_map; unfold dict in *; simpl; lia).
    cbn [map]. unfold bind at 1. rewrite (frame_of_records (r :: rs)).
    unfold ret. rewrite <- app_assoc. reflexivity.
  - subst sample. unfold unionByName, frame. cbn [rows columns].
    rewrite length_app, !length_map, length_firstn. reflexivity.
Qed.

(** *** Two walks over a page *)






(** C1.  The entity set zz_Recipe holds one record, which the endpoint serves
    as one page to every walk over the set.  [dataverse_to_spark] requests the
    page twice, once through the generator it samples from and once through
    the generator of [list(fetch_all(...))], and returns a table of two rows
    for the one record of the stream.  The same happens on every entity set
    of one page that holds records: the table has more rows than the stream
    has records, by the size of the sample. *)
Theorem dataverse_to_spark_counts_sample_twice :
  let page := page_response (mkPage [JObj recipe_a] None) in
  let out := dataverse_to_spark 10 org "zz_Recipe" None None 1000
               (mkWorld [page; page] []) in
  list_gen 10 (fetch_all org "zz_Recipe" None None 5000) [] (mkWorld [page] [])
  = (Ok [JObj recipe_a], mkWorld [] [Get recipe_url None]) /\
  out = (Ok (mkTable ["a"] [[Text (JInt 1)]; [Text (JInt 1)]]),
         mkWorld [] [Get recipe_url None; Get recipe_url None]) /\
  (forall tbl w, out = (Ok tbl, w) -> List.length (rows tbl) = 2%nat) /\
  (forall RESOURCE entity_set select filter_ sample_rows (rs : list dict)
          resp rest l fuel,
     rs <> [] ->
     serves resp (mkPage (map JObj rs) None) ->
     (List.length rs + 3 <= fuel)%nat ->
     exists tbl w,
       dataverse_to_spark fuel RESOURCE entity_set select filter_ sample_rows
         (mkWorld (resp :: resp :: rest) l) = (Ok tbl, w)
       /\ List.length (rows tbl)
          = (Nat.min (sample_size sample_rows) (List.length rs) + List.length rs)%nat
       /\ (List.length rs < List.length (rows tbl))%nat).
Proof.
  split; [reflexivity|]. split; [reflexivity|]. split.
  - intros tbl w H. vm_compute in H. inversion H. reflexivity.
  - intros RESOURCE entity_set select filter_ sample_rows rs resp rest l fuel
           Hne Hserve Hfuel.
    destruct (dataverse_to_spark_single_page_rows RESOURCE entity_set select filter_
                sample_rows rs resp rest l fuel Hne Hserve Hfuel) as [Hrun Hlen].
    eexists. eexists. split; [exact Hrun|]. split; [exact Hlen|].
    rewrite Hlen. unfold sample_size. destruct rs; [contradiction|]. simpl List.length. lia.
Qed.

(** C2.  The entity set holds the records a and b on one page and
    [sample_rows] is 1.  The sample is the record a, drawn from the front of
    the stream, and the generator it came from is left suspended before b.
    The second batch is the result of a new walk over the entity set, which
    starts at the first page again: it is the whole stream a, b and not the
    remainder b, so that the table holds a twice. *)
Theorem dataverse_to_spark_second_batch_is_whole_stream :
  let page := page_response (mkPage [JObj recipe_a; JObj recipe_b] None) in
  let it := fetch_all org "zz_Recipe" None None 5000 in
  let w1 := mkWorld [page] [Get recipe_url None] in
  take_sample 10 it [] 1 (mkWorld [page; page] []) = (Ok [JObj recipe_a], w1) /\
  list_gen 10 (fetch_all org "zz_Recipe" None None 5000) [] w1
  = (Ok [JObj recipe_a; JObj recipe_b],
     mkWorld [] [Get recipe_url None; Get recipe_url None]) /\
  dataverse_to_spark 10 org "zz_Recipe" None None 1 (mkWorld [page; page] [])
  = (Ok (mkTable ["a"; "b"]
           [[Text (JInt 1); Null]; [Text (JInt 1); Null]; [Null; Text (JInt 2)]]),
     mkWorld [] [Get recipe_url None; Get recipe_url None]).
Proof. repeat split; reflexivity. Qed.

(** ** Configuration *)

(** C7, as stated, fails.  In [partial_notebook] every required value is
    supplied, three by the secret store and the tenant id by its widget, and
    yet [get_cfg] raises: the tenant id secret cannot be read, so the values
    the store does hold are dropped with it, and the widgets of those three
    are empty. *)
Lemma get_cfg_drops_readable_secrets :
  forallb (supplied partial_notebook) required = true /\
  get_cfg partial_notebook
  = inl (MissingConfig ["client_id"; "client_secret"; "dataverse_url"] "kv").
Proof. split; reflexivity. Qed.

Lemma read_secrets_from_store nb :
  read_secrets nb
  = (from_store nb "dataverse-client-id", from_store nb "dataverse-client-secret",
     from_store nb "dataverse-tenant-id", from_store nb "dataverse-url").
Proof.
  unfold read_secrets, from_store, store_usable.
  destruct (secret nb "dataverse-client-id"); [|reflexivity].
  destruct (secret nb "dataverse-client-secret"); [|reflexivity].
  destruct (secret nb "dataverse-tenant-id"); reflexivity.
Qed.

Lemma resolved_empty nb f :
  String.eqb (resolved nb f) "" = true
  <-> nonempty (from_store nb (snd f)) = false /\ widgets nb (fst f) = "".
Proof.
  unfold resolved, nonempty. destruct (from_store nb (snd f)) as [s|].
  - destruct (String.eqb_spec s "") as [->|Hne]; simpl.
    + rewrite String.eqb_eq. tauto.
    + apply String.eqb_neq in Hne. rewrite Hne. split; [discriminate | intros [H _]; discriminate H].
  - rewrite String.eqb_eq. tauto.
Qed.

Lemma get_cfg_resolved nb :
  get_cfg nb
  = match missing_fields nb with
    | [] => inr (resolved nb ("client_id", "dataverse-client-id"),
                 resolved nb ("client_secret", "dataverse-client-secret"),
                 resolved nb ("tenant_id", "dataverse-tenant-id"),
                 resolved nb ("dataverse_url", "dataverse-url"))
    | _ => inl (MissingConfig (missing_fields nb) (SECRET_SCOPE nb))
    end.
Proof.
  unfold get_cfg. rewrite read_secrets_from_store.
  change (py_or (from_store nb "dataverse-client-id") (widgets nb "client_id"))
    with (resolved nb ("client_id", "dataverse-client-id")).
  change (py_or (from_store nb "dataverse-client-secret") (widgets nb "client_secret"))
    with (resolved nb ("client_secret", "dataverse-client-secret")).
  change (py_or (from_store nb "dataverse-tenant-id") (widgets nb "tenant_id"))
    with (resolved nb ("tenant_id", "dataverse-tenant-id")).
  change (py_or (from_store nb "dataverse-url") (widgets nb "dataverse_url"))
    with (resolved nb ("dataverse_url", "dataverse-url")).
  unfold missing_fields, required. cbn [filter map fst snd].
  destruct (String.eqb (resolved nb ("client_id", "dataverse-client-id")) "");
    destruct (String.eqb (resolved nb ("client_secret", "dataverse-client-secret")) "");
    destruct (String.eqb (resolved nb ("tenant_id", "dataverse-tenant-id")) "");
    destruct (String.eqb (resolved nb ("dataverse_url", "dataverse-url")) "");
    reflexivity.
Qed.

(** C7, amended.  [get_cfg] reads the secret store as a whole: the secrets
    count only when client id, client secret and tenant id can all be read
    (the url secret may be absent on its own).  Each value is then the
    store's when that counts and is non-empty, and the widget's otherwise.
    [get_cfg] raises exactly when one of the four values is empty after that,
    the error lists every such value, in order, and otherwise the four values
    are returned, a non-empty value of a store that counts taking precedence
    over the widget. *)
Theorem get_cfg_store_read_as_a_whole (nb : Notebook) :
  ((exists e, get_cfg nb = inl e) <-> missing_fields nb <> []) /\
  (forall name, In name (missing_fields nb) <->
     exists key, In (name, key) required
       /\ nonempty (from_store nb key) = false /\ widgets nb name = "") /\
  (missing_fields nb <> [] ->
     get_cfg nb = inl (MissingConfig (missing_fields nb) (SECRET_SCOPE nb))) /\
  (missing_fields nb = [] ->
     get_cfg nb
     = inr (resolved nb ("client_id", "dataverse-client-id"),
            resolved nb ("client_secret", "dataverse-client-secret"),
            resolved nb ("tenant_id", "dataverse-tenant-id"),
            resolved nb ("dataverse_url", "dataverse-url"))) /\
  (forall f s, from_store nb (snd f) = Some s -> s <> "" -> resolved nb f = s) /\
  (forall f, nonempty (from_store nb (snd f)) = false ->
     resolved nb f = widgets nb (fst f)).
Proof.
  pose proof (get_cfg_resolved nb) as Hcfg.
  split; [|split; [|split; [|split; [|split]]]].
  - rewrite Hcfg. destruct (missing_fields nb); split.
    + intros [e He]. discriminate He.
    + intros H. now contradiction H.
    + discriminate.
    + intros _. eexists. reflexivity.
  - intros name. unfold missing_fields. rewrite in_map_iff. split.
    + intros ([name' key] & Hname & Hin). simpl in Hname. subst name'.
      apply filter_In in Hin. destruct Hin as [Hin Hempty].
      apply resolved_empty in Hempty. exists key. tauto.
    + intros (key & Hin & Hstore & Hwidget). exists (name, key).
      split; [reflexivity|]. apply filter_In. split; [assumption|].
      apply resolved_empty. tauto.
  - intros H. rewrite Hcfg. destruct (missing_fields nb); [contradiction | reflexivity].
  - intros H. now rewrite Hcfg, H.
  - intros f s Hs Hne. unfold resolved. rewrite Hs.
    apply String.eqb_neq in Hne. now rewrite Hne.
  - intros f Hs. unfold resolved. unfold nonempty in Hs.
    destruct (from_store nb (snd f)) as [s|]; [|reflexivity].
    destruct (String.eqb s ""); [reflexivity | discriminate Hs].
Qed.

(** ** Authentication *)

(** C9.  [get_access_token] first asks the application for a cached token and
    performs the client-credentials exchange exactly when that silent attempt
    returned nothing.  It raises exactly when the final result has no
    [access_token] key, the error then carries that result as the provider
    returned it, and otherwise the value under [access_token] is returned.
    The endpoint script is not touched. *)
Theorem get_access_token_silent_then_exchange
    (msal : string -> string -> string -> ConfidentialClientApplication)
    (client_id client_secret tenant_id scope : string) (w : World) :
  let app := msal client_id client_secret
               ("https://login.microsoftonline.com/" ++ tenant_id)%string in
  let result := token_result app scope in
  let out := get_access_token msal client_id client_secret tenant_id scope w in
  log (snd out)
  = log w ++ AcquireSilent [scope]
      :: (if returned_nothing (acquire_token_silent app [scope])
          then [AcquireForClient [scope]] else []) /\
  script (snd out) = script w /\
  (returned_nothing (acquire_token_silent app [scope]) = true ->
     result = acquire_token_for_client app [scope]) /\
  (returned_nothing (acquire_token_silent app [scope]) = false ->
     acquire_token_silent app [scope] = Some result) /\
  ((exists e, fst out = Raise e) <-> lookup "access_token" result = None) /\
  (lookup "access_token" result = None -> fst out = Raise (TokenFailed result)) /\
  (forall tok, lookup "access_token" result = Some tok -> fst out = Ok tok).
Proof.
  intros app result out. subst out result. unfold get_access_token, token_result.
  fold app. unfold bind, emit, ret, raise, returned_nothing.
  destruct (acquire_token_silent app [scope]) as [[|kv d]|]; simpl.
  - destruct (lookup "access_token" (acquire_token_for_client app [scope])) eqn:E; simpl;
      rewrite <- app_assoc; repeat split; try reflexivity; try discriminate;
      try (intros [e He]; discriminate He); try (intros; eexists; reflexivity);
      try (intros tok Ht; congruence).
  - destruct (lookup "access_token" (kv :: d)) eqn:E; simpl in E |- *; rewrite E; simpl;
      repeat split; try reflexivity; try discriminate;
      try (intros [e He]; discriminate He); try (intros; eexists; reflexivity);
      try (intros tok Ht; congruence).
  - destruct (lookup "access_token" (acquire_token_for_client app [scope])) eqn:E; simpl;
      rewrite <- app_assoc; repeat split; try reflexivity; try discriminate;
      try (intros [e He]; discriminate He); try (intros; eexists; reflexivity);
      try (intros tok Ht; congruence).
Qed.

(** ** The statements at concrete inputs *)

(** Two 503 and then a 200: the body is returned after sleeps of 1 and 2
    seconds; five 503: the retries are exceeded after five requests. *)
Lemma dataverse_get_retry_policy_witness :
  dataverse_get recipe_url None 5
    (mkWorld [busy; busy; page_response (mkPage [] None)] [])
  = (Ok (JObj [("value", JArr [])]),
     mkWorld [] [Get recipe_url None; Sleep 1; Get recipe_url None; Sleep 2;
                 Get recipe_url None])
  /\ dataverse_get recipe_url None 5 (mkWorld [busy; busy; busy; busy; busy] [])
     = (Raise ExceededRetries,
        mkWorld [] [Get recipe_url None; Sleep 1; Get recipe_url None; Sleep 2;
                    Get recipe_url None; Sleep 4; Get recipe_url None; Sleep 8;
                    Get recipe_url None; Sleep 16]).
Proof.
  assert (Hbusy : In (status_code busy) [429; 500; 502; 503; 504])
    by (apply retryable_iff; reflexivity).
  split.
  - destruct (dataverse_get_retry_policy recipe_url None 5 [busy; busy] [] []
                ltac:(simpl; lia) ltac:(repeat constructor; exact Hbusy))
      as (_ & _ & _ & _ & H & _).
    exact (H (page_response (mkPage [] None)) ltac:(simpl; lia) eq_refl).
  - destruct (dataverse_get_retry_policy recipe_url None 5
                [busy; busy; busy; busy; busy] [] []
                ltac:(simpl; lia) ltac:(repeat constructor; exact Hbusy))
      as (_ & _ & _ & _ & _ & _ & H).
    exact (H eq_refl).
Defined.

(** A 404 at the first attempt. *)
Lemma dataverse_get_fatal_status_witness :
  dataverse_get recipe_url None 5 (mkWorld [not_found; busy] [])
  = (Raise (GetFailed 404 (inr "Not Found")), mkWorld [busy] [Get recipe_url None]).
Proof.
  destruct (dataverse_get_fatal_status recipe_url None 5 not_found [busy] []
              ltac:(lia) ltac:(discriminate)
              ltac:(intros H; apply retryable_iff in H; discriminate H))
    as (Hres & Hscript & done & Hlog & Hdone & _).
  rewrite Hdone in Hlog.
  destruct (dataverse_get recipe_url None 5 (mkWorld [not_found; busy] []))
    as [res [s lg]].
  simpl in Hres, Hscript, Hlog. now subst.
Defined.

(** Three pages of two, no and one record. *)
Lemma fetch_all_pagination_witness :
  let p1 := mkPage [JObj recipe_a; JObj recipe_b] (Some "https://org.crm.dynamics.com/next1") in
  let p2 := mkPage [] (Some "https://org.crm.dynamics.com/next2") in
  let p3 := mkPage [JObj recipe_b] None in
  let out := list_gen 10 (fetch_all org "zz_Recipe" None None 5000) []
               (mkWorld (map page_response [p1; p2; p3] ++ [busy]) []) in
  fst out = Ok [JObj recipe_a; JObj recipe_b; JObj recipe_b] /\
  script (snd out) = [busy] /\
  log (snd out)
  = [Get recipe_url None; Get "https://org.crm.dynamics.com/next1" None;
     Get "https://org.crm.dynamics.com/next2" None].
Proof.
  intros p1 p2 p3 out.
  assert (Hserve : forall p, match next_link p with Some u => u <> "" | None => True end ->
                             serves (page_response p) p).
  { intros [recs [u|]] Hu; (split; [reflexivity|]); eexists;
      (split; [reflexivity|]); split; try reflexivity.
    simpl in *. split; [reflexivity | assumption]. }
  destruct (fetch_all_pagination org "zz_Recipe" None None 5000 [p1; p2; p3]
              (map page_response [p1; p2; p3]) [busy] [] 10)
    as (Hres & Hscript & Hlog & _).
  - simpl. repeat split; discriminate.
  - repeat constructor; apply Hserve; simpl; try exact I; discriminate.
  - simpl. lia.
  - repeat split; assumption.
Defined.

(** A single page without a [value] key and without a link. *)
Lemma fetch_all_tolerates_missing_keys_witness :
  list_gen 3 (fetch_all org "zz_Recipe" None None 5000) []
    (mkWorld [mkResponse 200 (Some (JObj [("@odata.context", JStr "ctx")])) ""] [])
  = (Ok [], mkWorld [] [Get recipe_url None]).
Proof.
  destruct (fetch_all_tolerates_missing_keys org "zz_Recipe" None None 5000
              (mkResponse 200 (Some (JObj [("@odata.context", JStr "ctx")])) "")
              [("@odata.context", JStr "ctx")] [] [] eq_refl eq_refl)
    as (_ & _ & H & _).
  exact (H eq_refl (or_introl eq_refl) 3%nat (le_n 3)).
Defined.

(** An entity set without records. *)
Lemma dataverse_to_spark_empty_stream_witness :
  dataverse_to_spark 3 org "zz_Recipe" None None 1000
    (mkWorld [page_response (mkPage [] None)] [])
  = (Ok (mkTable [] []), mkWorld [] [Get recipe_url None]).
Proof.
  exact (proj1 (dataverse_to_spark_empty_stream 3 org "zz_Recipe" None None 1000
                  (mkWorld [page_response (mkPage [] None)] [])
                  (mkWorld [] [Get recipe_url None]) eq_refl)).
Defined.


(** * Further properties of the notebook *)

(** ** The resource url and the entity url *)

Lemma rstrip_slash_slashes n : rstrip_slash (slashes n) = "".
Proof. induction n as [|n IH]; [reflexivity|]. simpl. now rewrite IH. Qed.

Lemma rstrip_slash_app s : forall t,
  rstrip_slash t = "" -> rstrip_slash (s ++ t) = rstrip_slash s.
Proof.
  induction s as [|c s IH]; intros t Ht; simpl; [assumption|].
  now rewrite IH.
Qed.

Lemma rstrip_slash_split s : exists n, s = (rstrip_slash s ++ slashes n)%string.
Proof.
  induction s as [|c s [n IH]]; [exists O; reflexivity|].
  simpl. destruct (Ascii.eqb_spec c "/") as [->|Hc]; simpl.
  - destruct (String.eqb_spec (rstrip_slash s) "") as [He|Hne]; simpl.
    + exists (S n). simpl. rewrite He in IH. simpl in IH. now rewrite <- IH.
    + exists n. now rewrite <- IH.
  - exists n. now rewrite <- IH.
Qed.

Lemma rstrip_slash_no_trailing s : forall t, rstrip_slash s <> (t ++ "/")%string.
Proof.
  induction s as [|c s IH]; intros t; simpl.
  - destruct t; discriminate.
  - destruct (Ascii.eqb_spec c "/") as [->|Hc]; simpl.
    + destruct (String.eqb_spec (rstrip_slash s) "") as [He|Hne].
      * destruct t; discriminate.
      * destruct t as [|c' t]; simpl.
        -- intros H. inversion H. contradiction.
        -- intros H. inversion H. now apply (IH t).
    + destruct t as [|c' t]; simpl.
      * intros H. inversion H. contradiction.
      * intros H. inversion H. now apply (IH t).
Qed.

(** X1.  Trailing slashes of the configured Dataverse url do not matter: the
    resource, the token scope and every entity url are the same with and
    without them, the resource never ends in a slash, and the configured url
    is the resource followed by slashes only. *)
Theorem resource_ignores_trailing_slashes (DATAVERSE_URL : string) (n : nat) :
  RESOURCE_of (DATAVERSE_URL ++ slashes n) = RESOURCE_of DATAVERSE_URL /\
  SCOPE_of (DATAVERSE_URL ++ slashes n) = SCOPE_of DATAVERSE_URL /\
  (forall entity_set select filter_ top,
     build_entity_url (RESOURCE_of (DATAVERSE_URL ++ slashes n)) entity_set select filter_ top
     = build_entity_url (RESOURCE_of DATAVERSE_URL) entity_set select filter_ top) /\
  (forall t, RESOURCE_of DATAVERSE_URL <> (t ++ "/")%string) /\
  (exists m, DATAVERSE_URL = (RESOURCE_of DATAVERSE_URL ++ slashes m)%string).
Proof.
  assert (H : RESOURCE_of (DATAVERSE_URL ++ slashes n) = RESOURCE_of DATAVERSE_URL)
    by (apply rstrip_slash_app, rstrip_slash_slashes).
  split; [exact H|]. split; [unfold SCOPE_of; now rewrite H|].
  split; [intros; now rewrite H|].
  split; [apply rstrip_slash_no_trailing | apply rstrip_slash_split].
Qed.

Lemma append_inv_head (s a b : string) : (s ++ a)%string = (s ++ b)%string -> a = b.
Proof.
  induction s as [|c s IH]; simpl; [auto|]. intros H. inversion H. auto.
Qed.

Lemma append_nil_r (s : string) : (s ++ "")%string = s.
Proof. induction s as [|c s IH]; simpl; [reflexivity | now rewrite IH]. Qed.

(** X2.  Every entity url starts with the base url of the entity set, and a
    query string, opened by a question mark, follows exactly when a parameter
    that counts is given: an empty select list, an empty filter and a page
    size of 0 are left out like absent ones. *)
Theorem build_entity_url_query
    (RESOURCE entity_set : string) (select : option (list string))
    (filter_ : option string) (top : option Z) :
  (exists q, build_entity_url RESOURCE entity_set select filter_ top
             = (entity_base RESOURCE entity_set ++ q)%string
             /\ (has_params select filter_ top = false -> q = "")
             /\ (has_params select filter_ top = true ->
                 exists q', q = String "?" q')) /\
  (build_entity_url RESOURCE entity_set select filter_ top
   = entity_base RESOURCE entity_set
   <-> has_params select filter_ top = false).
Proof.
  assert (Hq : exists q, build_entity_url RESOURCE entity_set select filter_ top
             = (entity_base RESOURCE entity_set ++ q)%string
             /\ (has_params select filter_ top = false -> q = "")
             /\ (has_params select filter_ top = true -> exists q', q = String "?" q')).
  { unfold build_entity_url, has_params. fold (entity_base RESOURCE entity_set).
    destruct select as [[|c cs]|]; destruct filter_ as [f|];
      try destruct (String.eqb f ""); destruct top as [t|];
      try destruct (t =? 0); cbn [app negb orb];
      eexists; (split; [reflexivity|]); split; intros H;
      try discriminate H; try reflexivity; eexists; reflexivity. }
  split; [exact Hq|].
  destruct Hq as (q & Hurl & Hnone & Hsome). rewrite Hurl. split.
  - intros H. destruct (has_params select filter_ top); [|reflexivity].
    destruct (Hsome eq_refl) as [q' ->].
    rewrite <- (append_nil_r (entity_base RESOURCE entity_set)) in H at 2.
    apply append_inv_head in H. discriminate H.
  - intros H. rewrite (Hnone H). apply append_nil_r.
Qed.

(** ** The retry policy against any endpoint *)

(** Whatever the endpoint answers, the attempts leave a run of retried
    attempts in the log, followed by at most one further request. *)
Lemma attempts_trace n : forall a url params sc lg,
  1 <= a -> a + Z.of_nat n <= 1025 ->
  let out := attempts n a url params (mkWorld sc lg) in
  exists k last used,
    (last = [] \/ last = [Get url params]) /\
    (k + List.length last <= n)%nat /\
    log (snd out) = lg ++ retry_events k a url params ++ last /\
    sc = used ++ script (snd out) /\
    (k <= List.length used)%nat /\ (List.length used <= k + List.length last)%nat.
Proof.
  induction n as [|n IH]; intros a url params sc lg Ha Hn out; subst out.
  - exists O, [], []. simpl. rewrite app_nil_r. repeat split; auto.
  - destruct sc as [|r sc].
    + exists O, [Get url params], []. simpl. repeat split; auto; lia.
    + destruct (retryable (status_code r)) eqn:Hr.
      * rewrite attempts_step_retry by (try assumption; lia).
        destruct (IH (a + 1) url params sc
                    (lg ++ [Get url params; Sleep (backoff_delay a)]))
          as (k & last & used & Hlast & Hk & Hlog & Hsc & Hlo & Hhi); try lia.
        exists (S k), last, (r :: used). rewrite Hlog.
        split; [assumption|]. split; [lia|].
        split; [simpl; now rewrite <- app_assoc|].
        split; [simpl; now rewrite <- Hsc|]. simpl. split; lia.
      * rewrite attempts_step_final by assumption.
        exists O, [Get url params], [r]. simpl. repeat split; auto; lia.
Qed.

Lemma backoff_delay_range a : 1 <= a -> 1 <= backoff_delay a <= 30.
Proof.
  intros Ha. unfold backoff_delay. rewrite Z.mul_1_l.
  assert (0 < 2 ^ (a - 1)) by (apply Z.pow_pos_nonneg; lia). lia.
Qed.

Lemma total_backoff_5 k :
  (k <= 5)%nat -> total (map backoff_delay (attempt_numbers k)) <= 31.
Proof.
  intros Hk. do 6 (destruct k as [|k]; [vm_compute; discriminate|]). lia.
Qed.

Lemma total_bounded l b : Forall (fun s => s <= b) l -> total l <= b * Z.of_nat (List.length l).
Proof.
  induction 1 as [|s l Hs _ IH]; [simpl; lia|].
  cbn [total fold_right List.length]. fold (total l). lia.
Qed.

(** X3.  Whatever the endpoint answers, a call of [dataverse_get] with
    [max_retries] up to 1024 issues at most [max_retries] requests (none when
    that is 0 or less, the call then failing with the retries-exceeded error),
    reads one response per request and never one without a request, sleeps at
    most once per request and between 1 and 30 seconds each time, so at most
    [30 * max_retries] seconds in all, and at most 31 seconds for up to 5
    attempts. *)
Theorem dataverse_get_bounded_effort
    (url : string) (params : option (list (string * string))) (max_retries : Z)
    (w : World) :
  max_retries <= 1024 ->
  let out := dataverse_get url params max_retries w in
  exists done used,
    log (snd out) = log w ++ done /\
    script w = used ++ script (snd out) /\
    (requests done <= Z.to_nat max_retries)%nat /\
    (List.length used <= requests done <= List.length used + 1)%nat /\
    (List.length (sleeps done) <= requests done)%nat /\
    Forall (fun s => 1 <= s <= 30) (sleeps done) /\
    total (sleeps done) <= 30 * Z.of_nat (Z.to_nat max_retries) /\
    (max_retries <= 5 -> total (sleeps done) <= 31) /\
    (max_retries <= 0 -> done = [] /\ used = [] /\ fst out = Raise ExceededRetries).
Proof.
  intros Hmax out. subst out. unfold dataverse_get. destruct w as [sc lg].
  destruct (attempts_trace (Z.to_nat max_retries) 1 url params sc lg)
    as (k & last & used & Hlast & Hk & Hlog & Hsc & Hlo & Hhi); try lia.
  exists (retry_events k 1 url params ++ last), used.
  assert (Hreq : requests (retry_events k 1 url params ++ last) = (k + List.length last)%nat).
  { rewrite requests_app, requests_retry_events. destruct Hlast as [-> | ->]; reflexivity. }
  assert (Hsl : sleeps (retry_events k 1 url params ++ last)
                = map backoff_delay (attempt_numbers k)).
  { rewrite sleeps_app, sleeps_retry_events, attempt_numbers_shift.
    destruct Hlast as [-> | ->]; simpl; now rewrite app_nil_r. }
  assert (Hrange : Forall (fun s => 1 <= s <= 30) (map backoff_delay (attempt_numbers k))).
  { apply Forall_map, Forall_map, Forall_forall. intros i Hi.
    apply in_seq in Hi. apply backoff_delay_range. lia. }
  assert (Hone : (List.length last <= 1)%nat)
    by (destruct Hlast as [-> | ->]; simpl; lia).
  rewrite Hreq, Hsl. unfold attempt_numbers at 1. rewrite !length_map, length_seq.
  split; [exact Hlog|]. split; [exact Hsc|]. split; [lia|]. split; [lia|].
  split; [lia|]. split; [exact Hrange|]. split; [|split].
  - assert (Hb : total (map backoff_delay (attempt_numbers k))
                 <= 30 * Z.of_nat (List.length (map backoff_delay (attempt_numbers k)))).
    { apply total_bounded. eapply Forall_impl; [|exact Hrange]. simpl. lia. }
    unfold attempt_numbers in Hb at 2. rewrite !length_map, length_seq in Hb. lia.
  - intros H5. apply total_backoff_5. lia.
  - intros H0. replace (Z.to_nat max_retries) with O in * by lia.
    assert (k = O) by lia. subst k.
    destruct Hlast as [-> | ->]; [|simpl in Hk; lia].
    destruct used; [|simpl in Hhi; lia]. repeat split; reflexivity.
Qed.

(** A 404 after two 503, with five attempts allowed. *)
Lemma dataverse_get_bounded_effort_witness :
  exists done used,
    log (snd (dataverse_get recipe_url None 5 (mkWorld [busy; busy; not_found; busy] [])))
    = [] ++ done /\
    [busy; busy; not_found; busy]
    = used ++ script (snd (dataverse_get recipe_url None 5
                             (mkWorld [busy; busy; not_found; busy] []))) /\
    (requests done <= 5)%nat /\ total (sleeps done) <= 31.
Proof.
  destruct (dataverse_get_bounded_effort recipe_url None 5
              (mkWorld [busy; busy; not_found; busy] []) ltac:(lia))
    as (done & used & Hlog & Hsc & Hreq & _ & _ & _ & _ & H31 & _).
  exists done, used. repeat split; try assumption. apply H31. lia.
Defined.

(** A successful run of attempts read a 200 last and retryable answers only
    before it. *)
Lemma attempts_ok n : forall a url params sc lg j w',
  attempts n a url params (mkWorld sc lg) = (Ok j, w') ->
  exists pre r,
    sc = pre ++ r :: script w' /\
    status_code r = 200 /\ json_body r = Some j /\
    Forall (fun r => retryable (status_code r) = true) pre /\
    (List.length pre < n)%nat /\
    log w' = lg ++ retry_events (List.length pre) a url params ++ [Get url params].
Proof.
  induction n as [|n IH]; intros a url params sc lg j w' H; [discriminate H|].
  destruct sc as [|r sc]; [discriminate H|].
  destruct (retryable (status_code r)) eqn:Hr.
  - simpl attempts in H. unfold bind at 1 in H. unfold session_get in H. simpl in H.
    rewrite (retryable_not_200 _ Hr), Hr in H.
    unfold bind, _backoff in H.
    destruct (1024 <=? a - 1); [discriminate H|].
    unfold emit in H. simpl in H.
    apply IH in H. destruct H as (pre & r' & Hsc & H200 & Hbody & Hpre & Hlen & Hlog).
    exists (r :: pre), r'. simpl. rewrite <- Hsc.
    repeat split; try assumption; [now constructor | lia |].
    rewrite Hlog, <- !app_assoc. reflexivity.
  - rewrite attempts_step_final in H by assumption.
    destruct (status_code r =? 200) eqn:H200; [|discriminate H].
    destruct (json_body r) as [j'|] eqn:Hbody; [|discriminate H].
    inversion H; subst. exists [], r. simpl.
    apply Z.eqb_eq in H200. repeat split; auto; lia.
Qed.

(** X4.  [dataverse_get] returns a value only from a response with status 200:
    when it returns [j], the responses it read are a run of retryable ones,
    fewer than [max_retries], followed by a 200 whose parsed body is [j]; it
    made one request for each and slept after each of the retryable ones. *)
Theorem dataverse_get_returns_only_a_200
    (url : string) (params : option (list (string * string))) (max_retries : Z)
    (w w' : World) (j : json) :
  dataverse_get url params max_retries w = (Ok j, w') ->
  exists pre r,
    script w = pre ++ r :: script w' /\
    status_code r = 200 /\ json_body r = Some j /\
    Forall (fun r => In (status_code r) [429; 500; 502; 503; 504]) pre /\
    Z.of_nat (List.length pre) < max_retries /\
    log w' = log w ++ retry_events (List.length pre) 1 url params ++ [Get url params].
Proof.
  intros H. destruct w as [sc lg]. unfold dataverse_get in H.
  apply attempts_ok in H.
  destruct H as (pre & r & Hsc & H200 & Hbody & Hpre & Hlen & Hlog).
  exists pre, r. repeat split; try assumption; [|lia].
  eapply Forall_impl; [|exact Hpre]. intros r'. apply retryable_iff.
Qed.

(** A 200 after two 503. *)
Lemma dataverse_get_returns_only_a_200_witness :
  exists pre r,
    [busy; busy; page_response (mkPage [] None); not_found]
    = pre ++ r :: [not_found] /\
    status_code r = 200 /\ json_body r = Some (JObj [("value", JArr [])]) /\
    List.length pre = 2%nat.
Proof.
  destruct (dataverse_get_returns_only_a_200 recipe_url None 5
              (mkWorld [busy; busy; page_response (mkPage [] None); not_found] [])
              (mkWorld [not_found]
                 [Get recipe_url None; Sleep 1; Get recipe_url None; Sleep 2;
                  Get recipe_url None])
              (JObj [("value", JArr [])]) eq_refl)
    as (pre & r & Hsc & H200 & Hbody & _ & _ & _).
  exists pre, r. simpl in Hsc. repeat split; try assumption.
  apply (f_equal (@List.length Response)) in Hsc.
  rewrite length_app in Hsc. simpl in Hsc. lia.
Defined.

(** X5.  The backoff is capped only after the power is computed: when 1025
    responses in a row have a retryable status and [max_retries] allows that
    many attempts, the call does not end with the retries-exceeded error but
    with the overflow of [2**1024] in the backoff of attempt 1025, after 1025
    requests and 1024 sleeps. *)
Theorem dataverse_get_backoff_overflow
    (url : string) (params : option (list (string * string))) (max_retries : Z)
    (pre : list Response) (r : Response) (rest : list Response) (l : list Event) :
  List.length pre = 1024%nat ->
  Forall (fun r => In (status_code r) [429; 500; 502; 503; 504]) (pre ++ [r]) ->
  1025 <= max_retries ->
  dataverse_get url params max_retries (mkWorld (pre ++ r :: rest) l)
  = (Raise OverflowError,
     mkWorld rest (l ++ retry_events 1024 1 url params ++ [Get url params]))
  /\ requests (retry_events 1024 1 url params ++ [Get url params]) = 1025%nat
  /\ List.length (sleeps (retry_events 1024 1 url params ++ [Get url params])) = 1024%nat.
Proof.
  intros Hlen Hall Hmax. apply Forall_app in Hall. destruct Hall as [Hpre Hr].
  apply Forall_retryable in Hpre. inversion Hr as [|? ? Hr' _]; subst.
  apply retryable_iff in Hr'.
  split; [|split].
  - unfold dataverse_get.
    rewrite attempts_retry by (try assumption; rewrite Hlen; lia).
    rewrite Hlen.
    destruct (Z.to_nat max_retries - 1024)%nat as [|n] eqn:En; [lia|].
    simpl attempts. unfold bind at 1. unfold session_get. simpl.
    rewrite (retryable_not_200 _ Hr'), Hr'. unfold bind at 1.
    rewrite backoff_overflow by (change (Z.of_nat 1024) with 1024; lia).
    now rewrite <- app_assoc.
  - rewrite requests_app, requests_retry_events. reflexivity.
  - rewrite sleeps_app, sleeps_retry_events, app_nil_r, length_map, length_seq.
    reflexivity.
Qed.

(** 1025 times a 503, with 2000 attempts allowed. *)
Lemma dataverse_get_backoff_overflow_witness :
  fst (dataverse_get recipe_url None 2000
         (mkWorld (repeat busy 1024 ++ busy :: []) []))
  = Raise OverflowError.
Proof.
  assert (Hbusy : In (status_code busy) [429; 500; 502; 503; 504])
    by (apply retryable_iff; reflexivity).
  destruct (dataverse_get_backoff_overflow recipe_url None 2000 (repeat busy 1024)
              busy [] [] (repeat_length busy 1024)) as (H & _ & _).
  - apply Forall_app. split; [|repeat constructor; exact Hbusy].
    apply Forall_forall. intros x Hx. apply repeat_spec in Hx. now subst.
  - lia.
  - now rewrite H.
Defined.

(** ** Transient failures are invisible *)

Lemma blind_bind {A B} (m : M A) (k : A -> M B) :
  blind_to_padding m -> (forall a, blind_to_padding (k a)) ->
  blind_to_padding (bind m k).
Proof.
  intros Hm Hk w w' Hp. unfold bind.
  destruct (Hm w w' Hp) as [Hres Hscr].
  destruct (m w) as [[a|e| |] w1], (m w') as [[a'|e'| |] w1'];
    simpl in Hres, Hscr; try discriminate Hres.
  - inversion Hres; subst. now apply Hk.
  - inversion Hres; subst. split; [reflexivity | exact Hscr].
  - split; [reflexivity | exact Hscr].
  - split; [reflexivity | exact Hscr].
Qed.

Lemma blind_const {A} (res : Res A) : blind_to_padding (fun w => (res, w)).
Proof. intros w w' Hp. split; [reflexivity | exact Hp]. Qed.

Lemma blind_py_get data key default : blind_to_padding (py_get data key default).
Proof. unfold py_get. destruct data; apply blind_const. Qed.

Lemma blind_py_iter v : blind_to_padding (py_iter v).
Proof. unfold py_iter. destruct v; apply blind_const. Qed.

Lemma blind_frame_of batch : blind_to_padding (frame_of batch).
Proof. unfold frame_of. destruct (as_records batch); apply blind_const. Qed.

Lemma blind_dataverse_get url : blind_to_padding (dataverse_get url None 5).
Proof.
  intros [sc lg] [sc' lg'] Hp. simpl in Hp. unfold dataverse_get.
  change (Z.to_nat 5) with 5%nat.
  inversion Hp as [|pre r s s' Hpre Hlen Hr Hs]; subst.
  - split; [reflexivity | constructor].
  - rewrite attempts_retry by (try assumption; lia).
    destruct (5 - List.length pre)%nat as [|n] eqn:En; [lia|].
    rewrite !attempts_step_final by assumption.
    split; [reflexivity | exact Hs].
Qed.

Lemma blind_gen_next fuel : forall g, blind_to_padding (gen_next fuel g).
Proof.
  induction fuel as [|f IH]; intros g; [apply blind_const|].
  destruct g as [url|[|row rows] data|]; simpl.
  - apply blind_bind; [apply blind_dataverse_get|]. intros data.
    apply blind_bind; [apply blind_py_get|]. intros v.
    apply blind_bind; [apply blind_py_iter|]. intros rows. apply IH.
  - apply blind_bind; [apply blind_py_get|]. intros next.
    destruct (negb (truthy next)); [apply blind_const|].
    destruct next; try apply blind_const. apply IH.
  - apply blind_const.
  - apply blind_const.
Qed.

Lemma blind_list_gen fuel : forall it acc, blind_to_padding (list_gen fuel it acc).
Proof.
  induction fuel as [|f IH]; intros it acc; [apply blind_const|].
  simpl. apply blind_bind; [apply blind_gen_next|].
  intros [[row|] it']; [apply IH | apply blind_const].
Qed.

Lemma blind_take_sample fuel sample_rows : forall it sample,
  blind_to_padding (take_sample fuel it sample sample_rows).
Proof.
  induction fuel as [|f IH]; intros it sample; [apply blind_const|].
  simpl. apply blind_bind; [apply blind_gen_next|].
  intros [[row|] it']; [|apply blind_const].
  destruct (Z.of_nat (List.length (sample ++ [row])) >=? sample_rows);
    [apply blind_const | apply IH].
Qed.

(** X6.  Transient failures are invisible to every caller.  Put up to four
    responses of a retryable status before each answer of an endpoint: then
    [dataverse_get], [list(fetch_all(...))] and [dataverse_to_spark] return
    the same value or raise the same error as against the endpoint itself,
    and go on from the same place in its answers. *)
Theorem transient_failures_are_invisible
    (fuel : nat) (RESOURCE entity_set : string) (select : option (list string))
    (filter_ : option string) (page_size sample_rows : Z) (url : string)
    (w w' : World) :
  padded (script w) (script w') ->
  (fst (dataverse_get url None 5 w) = fst (dataverse_get url None 5 w')
   /\ padded (script (snd (dataverse_get url None 5 w)))
             (script (snd (dataverse_get url None 5 w')))) /\
  (let walk := list_gen fuel (fetch_all RESOURCE entity_set select filter_ page_size) [] in
   fst (walk w) = fst (walk w')
   /\ padded (script (snd (walk w))) (script (snd (walk w')))) /\
  (let job := dataverse_to_spark fuel RESOURCE entity_set select filter_ sample_rows in
   fst (job w) = fst (job w')
   /\ padded (script (snd (job w))) (script (snd (job w')))).
Proof.
  intros Hp. split; [|split].
  - now apply blind_dataverse_get.
  - now apply blind_list_gen.
  - revert w w' Hp. change (blind_to_padding
      (dataverse_to_spark fuel RESOURCE entity_set select filter_ sample_rows)).
    unfold dataverse_to_spark.
    apply blind_bind; [apply blind_take_sample|]. intros [|row sample];
      [apply blind_const|].
    apply blind_bind; [apply blind_frame_of|]. intros sdf.
    apply blind_bind; [apply blind_list_gen|]. intros [|row2 rest];
      [apply blind_const|].
    apply blind_bind; [apply blind_frame_of|]. intros sdf2. apply blind_const.
Qed.

(** Two pages, the first after two 503 and the second after one. *)
Lemma transient_failures_are_invisible_witness :
  let p1 := page_response (mkPage [JObj recipe_a] (Some "https://org.crm.dynamics.com/next")) in
  let p2 := page_response (mkPage [JObj recipe_b] None) in
  fst (list_gen 10 (fetch_all org "zz_Recipe" None None 5000) []
         (mkWorld [busy; busy; p1; busy; p2] []))
  = Ok [JObj recipe_a; JObj recipe_b].
Proof.
  intros p1 p2.
  destruct (transient_failures_are_invisible 10 org "zz_Recipe" None None 5000 1000
              recipe_url (mkWorld [busy; busy; p1; busy; p2] []) (mkWorld [p1; p2] []))
    as (_ & [H _] & _).
  - apply (padded_cons [busy; busy] p1 [busy; p2] [p2]);
      [repeat constructor | simpl; lia | reflexivity |].
    apply (padded_cons [busy] p2 [] []);
      [repeat constructor | simpl; lia | reflexivity | constructor].
  - rewrite H. reflexivity.
Defined.

(** ** Failures during a walk *)

Lemma last_cons_default {A} (L : list A) : forall x d d',
  last (x :: L) d = last (x :: L) d'.
Proof.
  induction L as [|y L IH]; intros x d d'; [reflexivity|].
  change (last (y :: L) d = last (y :: L) d'). apply IH.
Qed.

Lemma links_cons p ps u : next_link p = Some u -> links (p :: ps) = u :: links ps.
Proof. intros H. unfold links. simpl. now rewrite H. Qed.

Lemma next_url_cons url p ps u :
  next_link p = Some u -> next_url url (p :: ps) = next_url u ps.
Proof.
  intros H. unfold next_url. rewrite (links_cons _ _ _ H).
  change (last (u :: links ps) url = last (u :: links ps) u).
  apply last_cons_default.
Qed.

Lemma page_urls_cons url p ps u :
  next_link p = Some u -> page_urls url (p :: ps) = url :: page_urls u ps.
Proof. intros H. unfold page_urls. now rewrite (links_cons _ _ _ H). Qed.

(** Pages that all carry a link are walked through one by one; the walk then
    stands before the request of the last link. *)
Lemma drain_open ps : forall rs url acc rest l f1 f2,
  Forall2 serves rs ps ->
  Forall (fun p => next_link p <> None) ps ->
  (List.length (all_records ps) + 2 * List.length ps <= Nat.min f1 f2)%nat ->
  exists g1 g2,
    (Nat.min f1 f2 <= g1 + List.length (all_records ps) + 2 * List.length ps)%nat /\
    (f2 <= g2 + List.length (all_records ps))%nat /\
    drain_from f1 f2 (GStart url) acc (mkWorld (rs ++ rest) l)
    = drain_from g1 g2 (GStart (next_url url ps)) (acc ++ all_records ps)
        (mkWorld rest (l ++ get_events (page_urls url ps))).
Proof.
  induction ps as [|p ps IH]; intros rs url acc rest l f1 f2 Hserve Hlinks Hfuel.
  - inversion Hserve; subst. exists f1, f2.
    unfold next_url, page_urls, all_records. simpl. rewrite !app_nil_r.
    repeat split; lia.
  - inversion Hserve as [|r ? rs' ? Hr Hrs']; subst.
    inversion Hlinks as [|? ? Hp Hlinks']; subst.
    simpl List.length in *. rewrite all_records_cons, length_app in *.
    destruct f1 as [|f1]; [lia|].
    change ((r :: rs') ++ rest) with (r :: (rs' ++ rest)).
    destruct (drain_from_start f1 f2 url r p (rs' ++ rest) l acc Hr)
      as (d & _ & Hlink & ->).
    destruct (drain_rows (records p) acc f1 f2 (JObj d)
                (mkWorld (rs' ++ rest) (l ++ [Get url None])))
      as (g1 & g2 & Hg1 & Hg2 & ->); [lia | lia |].
    unfold link_of in Hlink. destruct (next_link p) as [u|] eqn:Hu; [|contradiction].
    destruct Hlink as [Hl Hne].
    destruct g1 as [|g1]; [lia|].
    rewrite (drain_from_follow _ _ _ u) by assumption.
    destruct (IH rs' u (acc ++ records p) rest (l ++ [Get url None]) g1 g2 Hrs' Hlinks')
      as (h1 & h2 & Hh1 & Hh2 & ->); [lia|].
    exists h1, h2. split; [lia|]. split; [lia|].
    rewrite (next_url_cons url p ps u Hu), (page_urls_cons url p ps u Hu).
    simpl get_events. rewrite <- !app_assoc. reflexivity.
Qed.

Lemma drain_from_raise f1 f2 url acc w e w' :
  dataverse_get url None 5 w = (Raise e, w') ->
  drain_from (S f1) f2 (GStart url) acc w = (Raise e, w').
Proof.
  intros H. unfold drain_from, bind. simpl gen_next. unfold bind. now rewrite H.
Qed.

(** X7.  A walk over an entity set has no partial result.  Let the endpoint
    serve pages that all carry a link, and let the request that follows them,
    at the link of the last page, fail in [dataverse_get] with the error [e].
    Then [list(fetch_all(...))] raises [e]: the records of the pages read so
    far are not returned, and the last thing done is that failed call. *)
Theorem fetch_all_has_no_partial_result
    (RESOURCE entity_set : string) (select : option (list string))
    (filter_ : option string) (page_size : Z)
    (ps : list Page) (rs rest : list Response) (l : list Event) (fuel : nat)
    (e : Exn) (w' : World) :
  Forall2 serves rs ps ->
  Forall (fun p => next_link p <> None) ps ->
  (List.length (all_records ps) + 2 * List.length ps + 2 <= fuel)%nat ->
  let url := build_entity_url RESOURCE entity_set select filter_ (Some page_size) in
  dataverse_get (next_url url ps) None 5
    (mkWorld rest (l ++ get_events (page_urls url ps))) = (Raise e, w') ->
  list_gen fuel (fetch_all RESOURCE entity_set select filter_ page_size) []
    (mkWorld (rs ++ rest) l) = (Raise e, w').
Proof.
  intros Hserve Hlinks Hfuel url Hfail. unfold fetch_all. fold url.
  destruct fuel as [|fuel]; [lia|]. rewrite list_gen_S.
  destruct (drain_open ps rs url [] rest l fuel fuel Hserve Hlinks)
    as (g1 & g2 & Hg1 & _ & ->); [lia|].
  destruct g1 as [|g1]; [lia|].
  now apply drain_from_raise.
Qed.

(** A page of two records with a link, then a 404. *)
Lemma fetch_all_has_no_partial_result_witness :
  list_gen 10 (fetch_all org "zz_Recipe" None None 5000) []
    (mkWorld [page_response (mkPage [JObj recipe_a; JObj recipe_b]
                               (Some "https://org.crm.dynamics.com/next"));
              not_found] [])
  = (Raise (GetFailed 404 (inr "Not Found")),
     mkWorld [] [Get recipe_url None; Get "https://org.crm.dynamics.com/next" None]).
Proof.
  apply (fetch_all_has_no_partial_result org "zz_Recipe" None None 5000
           [mkPage [JObj recipe_a; JObj recipe_b] (Some "https://org.crm.dynamics.com/next")]
           [page_response (mkPage [JObj recipe_a; JObj recipe_b]
                             (Some "https://org.crm.dynamics.com/next"))]
           [not_found] [] 10).
  - repeat constructor. eexists. repeat split; discriminate.
  - repeat constructor. discriminate.
  - simpl. lia.
  - reflexivity.
Defined.

Lemma gen_next_start_fails f url w e w' :
  (data <- dataverse_get url None 5 ;;
   v <- py_get data "value" (JArr []) ;;
   py_iter v) w = (Raise e, w') ->
  gen_next (S f) (GStart url) w = (Raise e, w').
Proof.
  intros H. simpl. unfold bind in *.
  destruct (dataverse_get url None 5 w) as [[data|e0| |] w1]; try discriminate H;
    [|now inversion H].
  destruct (py_get data "value" (JArr []) w1) as [[v|e1| |] w2]; try discriminate H;
    [|now inversion H].
  destruct (py_iter v w2) as [[rows|e2| |] w3]; try discriminate H. now inversion H.
Qed.

(** X8.  A page that is not what the protocol promises makes the walk raise
    after its one request, before any record is handed over: a 200 whose body
    does not parse raises the decode error, a body that parses to something
    else than an object raises on [.get], and an object whose [value] is
    null, a boolean or a number raises on the iteration.  Sampling and
    [list(fetch_all(...))] fail alike. *)
Theorem fetch_all_rejects_malformed_page
    (RESOURCE entity_set : string) (select : option (list string))
    (filter_ : option string) (page_size sample_rows : Z)
    (r : Response) (rest : list Response) (l : list Event) (fuel : nat) :
  status_code r = 200 ->
  (2 <= fuel)%nat ->
  let url := build_entity_url RESOURCE entity_set select filter_ (Some page_size) in
  let it := fetch_all RESOURCE entity_set select filter_ page_size in
  let w := mkWorld (r :: rest) l in
  let w' := mkWorld rest (l ++ [Get url None]) in
  let fails e := list_gen fuel it [] w = (Raise e, w')
                 /\ take_sample fuel it [] sample_rows w = (Raise e, w') in
  (json_body r = None -> fails JSONDecodeError) /\
  (forall j, json_body r = Some j -> is_dict j = false -> fails AttributeError) /\
  (forall d v, json_body r = Some (JObj d) -> lookup "value" d = Some v ->
     not_iterable v = true -> fails TypeError).
Proof.
  intros H200 Hfuel url it w w' fails. subst fails it w w'. unfold fetch_all. fold url.
  destruct fuel as [|[|fuel]]; try lia.
  assert (Hboth : forall e,
            gen_next (S fuel) (GStart url) (mkWorld (r :: rest) l)
            = (Raise e, mkWorld rest (l ++ [Get url None])) ->
            list_gen (S (S fuel)) (GStart url) [] (mkWorld (r :: rest) l)
            = (Raise e, mkWorld rest (l ++ [Get url None]))
            /\ take_sample (S (S fuel)) (GStart url) [] sample_rows (mkWorld (r :: rest) l)
               = (Raise e, mkWorld rest (l ++ [Get url None]))).
  { intros e H. split.
    - rewrite list_gen_S. unfold drain_from, bind. now rewrite H.
    - rewrite take_sample_S. unfold bind. now rewrite H. }
  split; [|split].
  - intros Hbody. apply Hboth, gen_next_start_fails. unfold bind.
    now rewrite dataverse_get_200, Hbody by assumption.
  - intros j Hbody Hj. apply Hboth, gen_next_start_fails. unfold bind.
    rewrite dataverse_get_200, Hbody by assumption.
    destruct j; try reflexivity. discriminate Hj.
  - intros d v Hbody Hv Hiter. apply Hboth, gen_next_start_fails. unfold bind.
    rewrite dataverse_get_200, Hbody by assumption.
    unfold py_get, ret. rewrite Hv. destruct v; try discriminate Hiter; reflexivity.
Qed.

(** A 200 whose body is a JSON array. *)
Lemma fetch_all_rejects_malformed_page_witness :
  list_gen 2 (fetch_all org "zz_Recipe" None None 5000) []
    (mkWorld [mkResponse 200 (Some (JArr [JObj recipe_a])) ""] [])
  = (Raise AttributeError, mkWorld [] [Get recipe_url None]).
Proof.
  destruct (fetch_all_rejects_malformed_page org "zz_Recipe" None None 5000 1000
              (mkResponse 200 (Some (JArr [JObj recipe_a])) "") [] [] 2
              eq_refl (le_n 2)) as (_ & H & _).
  exact (proj1 (H (JArr [JObj recipe_a]) eq_refl eq_refl)).
Defined.

(** ** The sampling loop *)

(** Inside a page that holds enough rows the loop stops at the row that
    completes the sample, whatever follows it. *)
Lemma take_sample_fill sample_rows data w recs : forall acc fuel,
  1 <= sample_rows - Z.of_nat (List.length acc) <= Z.of_nat (List.length recs) ->
  (Z.to_nat (sample_rows - Z.of_nat (List.length acc)) + 1 <= fuel)%nat ->
  take_sample fuel (GRows recs data) acc sample_rows w
  = (Ok (acc ++ firstn (Z.to_nat (sample_rows - Z.of_nat (List.length acc))) recs), w).
Proof.
  induction recs as [|row tl IH]; intros acc fuel Hneed Hfuel;
    cbn [List.length] in Hneed; [lia|].
  destruct fuel as [|[|fuel]]; try lia.
  rewrite take_sample_S. unfold bind at 1. rewrite gen_next_row. cbv beta iota.
  rewrite length_app. cbn [List.length]. rewrite Z.geb_leb.
  destruct (Z.leb_spec sample_rows (Z.of_nat (List.length acc + 1))) as [Hle|Hgt].
  - replace (Z.to_nat (sample_rows - Z.of_nat (List.length acc))) with 1%nat by lia.
    reflexivity.
  - rewrite IH by (rewrite length_app; cbn [List.length]; lia).
    rewrite length_app. cbn [List.length].
    replace (Z.to_nat (sample_rows - Z.of_nat (List.length acc)))
      with (S (Z.to_nat (sample_rows - Z.of_nat (List.length acc + 1)))) by lia.
    cbn [firstn]. now rewrite <- app_assoc.
Qed.

(** X9.  Sampling is lazy.  When the first page holds at least [sample_rows]
    records, the sample is the first [sample_rows] of them and the sampling
    loop has issued that one request only: the generator is left suspended
    inside the page, and its link, if it has one, is not followed. *)
Theorem sampling_stops_inside_the_page
    (RESOURCE entity_set : string) (select : option (list string))
    (filter_ : option string) (page_size sample_rows : Z)
    (r : Response) (p : Page) (rest : list Response) (l : list Event) (fuel : nat) :
  serves r p ->
  1 <= sample_rows <= Z.of_nat (List.length (records p)) ->
  (Z.to_nat sample_rows + 2 <= fuel)%nat ->
  let url := build_entity_url RESOURCE entity_set select filter_ (Some page_size) in
  take_sample fuel (fetch_all RESOURCE entity_set select filter_ page_size) []
    sample_rows (mkWorld (r :: rest) l)
  = (Ok (firstn (Z.to_nat sample_rows) (records p)),
     mkWorld rest (l ++ [Get url None])).
Proof.
  intros (H200 & d & Hbody & Hvalue & _) Hrows Hfuel url. unfold fetch_all. fold url.
  destruct (records p) as [|row tl] eqn:Hrecs; [simpl in Hrows; lia|].
  destruct fuel as [|[|[|fuel]]]; try lia.
  rewrite take_sample_S. unfold bind at 1.
  rewrite (gen_next_start _ _ _ d (row :: tl)) by (try assumption; now rewrite Hvalue).
  rewrite gen_next_row. cbv beta iota. cbn [app List.length]. rewrite Z.geb_leb.
  destruct (Z.leb_spec sample_rows (Z.of_nat 1)) as [Hle|Hgt].
  - replace (Z.to_nat sample_rows) with 1%nat by lia. reflexivity.
  - cbn [List.length] in Hrows.
    rewrite take_sample_fill by (cbn [List.length]; lia).
    cbn [List.length].
    replace (Z.to_nat sample_rows) with (S (Z.to_nat (sample_rows - Z.of_nat 1))) by lia.
    reflexivity.
Qed.

(** A page of two records with a link, and a sample of one. *)
Lemma sampling_stops_inside_the_page_witness :
  take_sample 10 (fetch_all org "zz_Recipe" None None 5000) [] 1
    (mkWorld [page_response (mkPage [JObj recipe_a; JObj recipe_b]
                               (Some "https://org.crm.dynamics.com/next"));
              not_found] [])
  = (Ok [JObj recipe_a], mkWorld [not_found] [Get recipe_url None]).
Proof.
  apply (sampling_stops_inside_the_page org "zz_Recipe" None None 5000 1
           _ (mkPage [JObj recipe_a; JObj recipe_b]
                (Some "https://org.crm.dynamics.com/next")) [not_found] [] 10).
  - split; [reflexivity|]. eexists. repeat split; discriminate.
  - simpl. lia.
  - simpl. lia.
Defined.

(** X10.  A [sample_rows] below 1 behaves as 1: the test of the sample size
    comes after the first record is taken, so that one record is sampled all
    the same and the table is the one for [sample_rows = 1]. *)
Theorem sample_rows_below_one_is_one
    (fuel : nat) (RESOURCE entity_set : string) (select : option (list string))
    (filter_ : option string) (sample_rows : Z) (w : World) :
  sample_rows <= 1 ->
  (forall it, take_sample fuel it [] sample_rows w = take_sample fuel it [] 1 w) /\
  dataverse_to_spark fuel RESOURCE entity_set select filter_ sample_rows w
  = dataverse_to_spark fuel RESOURCE entity_set select filter_ 1 w.
Proof.
  intros Hsr.
  assert (Hsample : forall it,
            take_sample fuel it [] sample_rows w = take_sample fuel it [] 1 w).
  { intros it. destruct fuel as [|f]; [reflexivity|].
    rewrite !take_sample_S. unfold bind.
    destruct (gen_next f it w) as [[[[row|] it']|e| |] w1]; try reflexivity.
    cbn [app List.length]. rewrite !Z.geb_leb.
    replace (sample_rows <=? Z.of_nat 1) with true by (symmetry; apply Z.leb_le; lia).
    reflexivity. }
  split; [exact Hsample|].
  unfold dataverse_to_spark, bind. now rewrite Hsample.
Qed.

(** A page of two records, sampled with [sample_rows = -3]. *)
Lemma sample_rows_below_one_is_one_witness :
  take_sample 10 (fetch_all org "zz_Recipe" None None 5000) [] (-3)
    (mkWorld [page_response (mkPage [JObj recipe_a; JObj recipe_b] None)] [])
  = (Ok [JObj recipe_a],
     mkWorld [] [Get recipe_url None]).
Proof.
  rewrite (proj1 (sample_rows_below_one_is_one 10 org "zz_Recipe" None None (-3)
                    (mkWorld [page_response (mkPage [JObj recipe_a; JObj recipe_b] None)] [])
                    ltac:(lia))).
  reflexivity.
Defined.

Lemma take_sample_bound sample_rows fuel : forall it acc w s w',
  take_sample fuel it acc sample_rows w = (Ok s, w') ->
  (exists more, s = acc ++ more) /\
  Z.of_nat (List.length s) <= Z.max (Z.of_nat (List.length acc) + 1) sample_rows.
Proof.
  induction fuel as [|f IH]; intros it acc w s w' H; [discriminate H|].
  rewrite take_sample_S in H. unfold bind in H.
  destruct (gen_next f it w) as [[[[row|] it']|e| |] w1]; try discriminate H.
  - destruct (Z.of_nat (List.length (acc ++ [row])) >=? sample_rows) eqn:E.
    + inversion H; subst. split; [now exists [row]|].
      rewrite length_app. simpl. lia.
    + apply IH in H. destruct H as [[more ->] Hlen]. split.
      * exists (row :: more). now rewrite <- app_assoc.
      * rewrite Z.geb_leb in E. apply Z.leb_gt in E.
        rewrite !length_app in *. simpl List.length in *. lia.
  - inversion H; subst. split; [exists []; now rewrite app_nil_r | lia].
Qed.

(** X11.  Whatever the endpoint serves, the sample never holds more than
    [sample_rows] records, and never more than one when [sample_rows] is
    below 1. *)
Theorem sample_is_bounded
    (fuel : nat) (it : Gen) (sample_rows : Z) (w w' : World) (sample : list json) :
  take_sample fuel it [] sample_rows w = (Ok sample, w') ->
  (List.length sample <= sample_size sample_rows)%nat.
Proof.
  intros H. apply take_sample_bound in H. destruct H as [_ H].
  unfold sample_size. simpl in H. lia.
Qed.

(** Three records on a page, sampled with [sample_rows = 2]. *)
Lemma sample_is_bounded_witness :
  (List.length [JObj recipe_a; JObj recipe_b] <= sample_size 2)%nat.
Proof.
  apply (sample_is_bounded 10 (fetch_all org "zz_Recipe" None None 5000) 2
           (mkWorld [page_response (mkPage [JObj recipe_a; JObj recipe_b; JObj recipe_a] None)] [])
           (mkWorld [] [Get recipe_url None])).
  reflexivity.
Defined.

(** ** The tables *)

(** X12.  Whatever the endpoint serves, a table that [dataverse_to_spark]
    returns is well formed: its column names are distinct and every row has
    exactly one cell per column. *)
Theorem dataverse_to_spark_table_well_formed
    (fuel : nat) (RESOURCE entity_set : string) (select : option (list string))
    (filter_ : option string) (sample_rows : Z) (w w' : World) (tbl : Table) :
  dataverse_to_spark fuel RESOURCE entity_set select filter_ sample_rows w = (Ok tbl, w') ->
  well_formed tbl.
Proof.
  unfold dataverse_to_spark, bind. intros H.
  destruct (take_sample fuel _ [] sample_rows w) as [[[|row sample]|e| |] w1];
    try discriminate H.
  - inversion H; subst. split; simpl; constructor.
  - unfold frame_of at 1 in H.
    destruct (as_records (row :: sample)) as [recs|]; [|discriminate H].
    unfold ret at 1 in H.
    destruct (list_gen fuel _ [] w1) as [[[|row2 rest]|e| |] w2]; try discriminate H.
    + inversion H; subst. apply frame_well_formed.
    + unfold frame_of in H.
      destruct (as_records (row2 :: rest)) as [recs2|]; [|discriminate H].
      inversion H; subst.
      apply unionByName_well_formed; apply frame_columns_NoDup.
Qed.

(** The records a and b, of different fields, sampled one and then both. *)
Lemma dataverse_to_spark_table_well_formed_witness :
  well_formed (mkTable ["a"; "b"]
                 [[Text (JInt 1); Null]; [Text (JInt 1); Null]; [Null; Text (JInt 2)]]).
Proof.
  apply (dataverse_to_spark_table_well_formed 10 org "zz_Recipe" None None 1
           (mkWorld [page_response (mkPage [JObj recipe_a; JObj recipe_b] None);
                     page_response (mkPage [JObj recipe_a; JObj recipe_b] None)] [])
           (mkWorld [] [Get recipe_url None; Get recipe_url None])).
  reflexivity.
Defined.

(** ** What the configuration returns *)

Lemma filter_nil_none {A} (p : A -> bool) (l : list A) :
  filter p l = [] -> forall x, In x l -> p x = false.
Proof.
  induction l as [|a l IH]; simpl; [contradiction|].
  destruct (p a) eqn:E; [discriminate|].
  intros H x [<-|Hx]; auto.
Qed.

(** Leaving fields out keeps their names distinct. *)
Lemma names_stay_distinct (keep : string * string -> bool)
    (fields : list (string * string)) :
  NoDup (map fst fields) -> NoDup (map fst (filter keep fields)).
Proof.
  induction fields as [|[name key] rest IH]; [trivial|].
  cbn [map fst filter]. rewrite NoDup_cons_iff. intros [Hfresh Hrest].
  destruct (keep (name, key)); [|now apply IH].
  cbn [map fst]. apply NoDup_cons; [|now apply IH].
  contradict Hfresh. apply in_map_iff in Hfresh.
  destruct Hfresh as ([name' key'] & Hname & Hkept). simpl in Hname. subst name'.
  apply filter_In in Hkept. apply in_map_iff. exists (name, key'). tauto.
Qed.

Lemma resolved_source nb f :
  secret nb (snd f) = Some (resolved nb f) \/ resolved nb f = widgets nb (fst f).
Proof.
  unfold resolved, from_store. destruct (store_usable nb); [|now right].
  destruct (secret nb (snd f)) as [s|]; [|now right].
  destruct (String.eqb s ""); [now right | now left].
Qed.

(** X13.  What [get_cfg] returns can be relied on: every one of the four
    values is non-empty and is the secret of its key or the content of its
    widget.  When it raises instead, the error names at least one value, names
    no value twice and names required values only. *)
Theorem get_cfg_result_is_sound (nb : Notebook) :
  match get_cfg nb with
  | inr (cid, csec, tid, url) =>
      (cid <> "" /\ csec <> "" /\ tid <> "" /\ url <> "") /\
      (secret nb "dataverse-client-id" = Some cid \/ cid = widgets nb "client_id") /\
      (secret nb "dataverse-client-secret" = Some csec \/ csec = widgets nb "client_secret") /\
      (secret nb "dataverse-tenant-id" = Some tid \/ tid = widgets nb "tenant_id") /\
      (secret nb "dataverse-url" = Some url \/ url = widgets nb "dataverse_url")
  | inl e =>
      exists missing,
        e = MissingConfig missing (SECRET_SCOPE nb) /\
        missing <> [] /\ NoDup missing /\
        incl missing ["client_id"; "client_secret"; "tenant_id"; "dataverse_url"]
  end.
Proof.
  rewrite get_cfg_resolved. destruct (missing_fields nb) as [|m ms] eqn:E.
  - unfold missing_fields in E. apply map_eq_nil in E.
    pose proof (filter_nil_none _ _ E) as Hfull.
    assert (Hne : forall f, In f required -> resolved nb f <> "").
    { intros f Hf. apply String.eqb_neq. now apply Hfull. }
    split.
    + repeat split; apply Hne; unfold required; simpl; tauto.
    + split; [exact (resolved_source nb ("client_id", "dataverse-client-id"))|].
      split; [exact (resolved_source nb ("client_secret", "dataverse-client-secret"))|].
      split; [exact (resolved_source nb ("tenant_id", "dataverse-tenant-id"))|].
      exact (resolved_source nb ("dataverse_url", "dataverse-url")).
  - exists (m :: ms). split; [reflexivity|]. split; [discriminate|].
    rewrite <- E. unfold missing_fields. split.
    + apply names_stay_distinct. unfold required. simpl.
      repeat constructor; simpl; intuition discriminate.
    + intros name Hin. apply in_map_iff in Hin. destruct Hin as (f & <- & Hf).
      apply filter_In in Hf. destruct Hf as [Hf _].
      unfold required in Hf. simpl in Hf.
      destruct Hf as [<-|[<-|[<-|[<-|[]]]]]; simpl; tauto.
Qed.

(** ** What a pull may do *)

Lemma attempts_effect n : forall a url params sc lg,
  1 <= a -> a + Z.of_nat n <= 1025 ->
  let out := attempts n a url params (mkWorld sc lg) in
  exists used done,
    sc = used ++ script (snd out) /\
    log (snd out) = lg ++ done /\
    Forall (fun e => e = Get url params \/ exists s, e = Sleep s /\ 1 <= s <= 30) done /\
    counted (fst out) used done.
Proof.
  induction n as [|n IH]; intros a url params sc lg Ha Hn out; subst out.
  - exists [], []. simpl. rewrite app_nil_r. repeat split; auto. now left.
  - destruct sc as [|r sc].
    + exists [], [Get url params]. simpl. repeat split; auto.
      now right.
    + destruct (retryable (status_code r)) eqn:Hr.
      * rewrite attempts_step_retry by (try assumption; lia).
        destruct (IH (a + 1) url params sc
                    (lg ++ [Get url params; Sleep (backoff_delay a)]))
          as (used & done & Hsc & Hlog & Hev & Hcount); try lia.
        exists (r :: used), (Get url params :: Sleep (backoff_delay a) :: done).
        rewrite Hlog. split; [simpl; now rewrite <- Hsc|].
        split; [now rewrite <- app_assoc|]. split.
        -- constructor; [now left|]. constructor; [|assumption].
           right. eexists. split; [reflexivity | now apply backoff_delay_range].
        -- unfold counted, requests in *. simpl.
           destruct Hcount as [Hc|[Hres Hc]]; [left | right; split; [assumption|]]; lia.
      * rewrite attempts_step_final by assumption.
        exists [r], [Get url params]. simpl. repeat split; auto. now left.
Qed.

Lemma fetch_event_weaken urls urls' e :
  incl urls urls' -> fetch_event urls e -> fetch_event urls' e.
Proof. intros Hincl. destruct e; simpl; auto. intros [Hp Hu]. auto. Qed.

Lemma served_links_app u1 u2 : served_links (u1 ++ u2) = served_links u1 ++ served_links u2.
Proof. unfold served_links. apply flat_map_app. Qed.

Lemma counted_ok {A} (a : A) used done :
  counted (Ok a) used done -> requests done = List.length used.
Proof. intros [H|[H _]]; [assumption | discriminate H]. Qed.

Lemma tracked_pure {A} urls (res : Res A) after :
  (forall a, res = Ok a -> incl (after a) urls) ->
  tracked urls (fun w => (res, w)) after.
Proof.
  intros Hafter w. exists [], []. simpl. rewrite app_nil_r.
  repeat split; auto; [now left|].
  intros a Ha. apply Hafter in Ha. now rewrite app_nil_r.
Qed.

Lemma tracked_weaken {A} urls urls' (m : M A) after :
  incl urls urls' -> tracked urls m after -> tracked urls' m after.
Proof.
  intros Hincl Hm w. destruct (Hm w) as (used & done & Hsc & Hlog & Hev & Hcount & Hafter).
  exists used, done. repeat split; try assumption.
  - eapply Forall_impl; [|exact Hev]. intros e.
    apply fetch_event_weaken. now apply incl_app_app; [|apply incl_refl].
  - intros a Ha. eapply incl_tran; [now apply Hafter|].
    now apply incl_app_app; [|apply incl_refl].
Qed.

Lemma tracked_bind {A B} urls (m : M A) (k : A -> M B) after after' :
  tracked urls m after ->
  (forall a, tracked (urls ++ after a) (k a) after') ->
  tracked urls (bind m k) after'.
Proof.
  intros Hm Hk w. unfold bind.
  destruct (Hm w) as (used & done & Hsc & Hlog & Hev & Hcount & Hafter).
  destruct (m w) as [[a|e| |] w1]; simpl in *.
  - destruct (Hk a w1) as (used2 & done2 & Hsc2 & Hlog2 & Hev2 & Hcount2 & Hafter2).
    assert (Hincl : incl ((urls ++ after a) ++ served_links used2)
                         (urls ++ served_links (used ++ used2))).
    { rewrite served_links_app. intros u Hu. rewrite !in_app_iff in Hu.
      rewrite !in_app_iff. destruct Hu as [[Hu|Hu]|Hu]; auto.
      apply (Hafter a eq_refl) in Hu. rewrite in_app_iff in Hu. tauto. }
    exists (used ++ used2), (done ++ done2).
    split; [now rewrite <- app_assoc, <- Hsc2|].
    split; [now rewrite Hlog2, Hlog, <- app_assoc|]. split; [|split].
    + apply Forall_app. split.
      * eapply Forall_impl; [|exact Hev]. intros e. apply fetch_event_weaken.
        rewrite served_links_app. intros u Hu. rewrite !in_app_iff in *. tauto.
      * eapply Forall_impl; [|exact Hev2]. intros e. now apply fetch_event_weaken.
    + apply counted_ok in Hcount. unfold counted in *.
      rewrite requests_app, length_app, Hcount.
      destruct Hcount2 as [Hc|[Hres Hc]]; [left | right; split; [assumption|]]; lia.
    + intros b Hb. eapply incl_tran; [now apply Hafter2 | exact Hincl].
  - exists used, done. repeat split; try assumption; [|intros b Hb; discriminate Hb].
    destruct Hcount as [Hc|[Hres Hc]]; [now left | right].
    split; [now inversion Hres | assumption].
  - exists used, done. repeat split; try assumption; [|intros b Hb; discriminate Hb].
    destruct Hcount as [Hc|[Hres Hc]]; [now left | discriminate Hres].
  - exists used, done. repeat split; try assumption; [|intros b Hb; discriminate Hb].
    destruct Hcount as [Hc|[Hres Hc]]; [now left | discriminate Hres].
Qed.

Lemma tracked_dataverse_get url : tracked [url] (dataverse_get url None 5) link_urls.
Proof.
  intros [sc lg]. unfold dataverse_get. change (Z.to_nat 5) with 5%nat.
  destruct (attempts_effect 5 1 url None sc lg) as (used & done & Hsc & Hlog & Hev & Hcount);
    try (simpl; lia).
  exists used, done. simpl script. simpl log.
  split; [assumption|]. split; [assumption|]. split; [|split; [assumption|]].
  - eapply Forall_impl; [|exact Hev]. intros e [->|(s & -> & Hs)]; simpl; [|assumption].
    split; [reflexivity | now left].
  - intros j Hj.
    destruct (attempts 5 1 url None (mkWorld sc lg)) as [res w'] eqn:Hrun.
    simpl in Hj, Hsc. subst res.
    apply attempts_ok in Hrun.
    destruct Hrun as (pre & r & Hsc' & _ & Hbody & _).
    rewrite Hsc' in Hsc.
    change (pre ++ r :: script w') with (pre ++ [r] ++ script w') in Hsc.
    rewrite app_assoc in Hsc. apply app_inv_tail in Hsc. subst used.
    rewrite served_links_app. unfold served_links at 2. simpl. rewrite Hbody, app_nil_r.
    intros u Hu. right. apply in_or_app. now right.
Qed.

Lemma tracked_fail {A} urls (e : Exn) (after : A -> list string) :
  tracked urls (raise e) after.
Proof. apply tracked_pure. intros a Ha. discriminate Ha. Qed.

Lemma tracked_out_of_fuel {A} urls (after : A -> list string) :
  tracked urls out_of_fuel after.
Proof. apply tracked_pure. intros a Ha. discriminate Ha. Qed.

Lemma tracked_ret {A} urls (a : A) (after : A -> list string) :
  incl (after a) urls -> tracked urls (ret a) after.
Proof. intros H. apply tracked_pure. intros b Hb. now inversion Hb; subst. Qed.

Lemma tracked_py_get_value urls data :
  tracked urls (py_get data "value" (JArr [])) (fun _ => []).
Proof.
  unfold py_get. destruct data; try apply tracked_fail.
  apply tracked_ret, incl_nil_l.
Qed.

Lemma tracked_py_iter urls v : tracked urls (py_iter v) (fun _ => []).
Proof.
  unfold py_iter. destruct v; try apply tracked_fail; apply tracked_ret, incl_nil_l.
Qed.

Lemma tracked_py_get_link data :
  tracked (link_urls data) (py_get data "@odata.nextLink" JNull) value_url.
Proof.
  unfold py_get. destruct data; try apply tracked_fail.
  apply tracked_ret. unfold link_urls.
  destruct (lookup "@odata.nextLink" fields) as [[]|]; simpl;
    try apply incl_nil_l; apply incl_refl.
Qed.

Ltac solve_incl :=
  cbn [gen_urls snd]; let u := fresh "u" in let Hu := fresh "Hu" in
  intros u Hu; rewrite ?in_app_iff; tauto.

Lemma tracked_gen_next fuel : forall g,
  tracked (gen_urls g) (gen_next fuel g) (fun step => gen_urls (snd step)).
Proof.
  induction fuel as [|f IH]; intros g; [apply tracked_out_of_fuel|].
  destruct g as [url|[|row rows] data|]; simpl gen_next.
  - apply (tracked_bind _ _ _ link_urls); [apply tracked_dataverse_get|]. intros data.
    apply (tracked_bind _ _ _ (fun _ => [])); [apply tracked_py_get_value|]. intros v.
    apply (tracked_bind _ _ _ (fun _ => [])); [apply tracked_py_iter|]. intros rows.
    apply (tracked_weaken (gen_urls (GRows rows data))); [|apply IH].
    solve_incl.
  - apply (tracked_bind _ _ _ value_url); [apply tracked_py_get_link|]. intros next.
    destruct (negb (truthy next)); [apply tracked_ret, incl_nil_l|].
    destruct next; try apply tracked_fail.
    apply (tracked_weaken (gen_urls (GStart s))); [|apply IH].
    solve_incl.
  - apply tracked_ret. cbn [gen_urls snd]. apply incl_refl.
  - apply tracked_ret, incl_nil_l.
Qed.

Lemma tracked_list_gen fuel : forall it acc,
  tracked (gen_urls it) (list_gen fuel it acc) (fun _ => []).
Proof.
  induction fuel as [|f IH]; intros it acc; [apply tracked_out_of_fuel|].
  simpl list_gen.
  apply (tracked_bind _ _ _ (fun step => gen_urls (snd step))); [apply tracked_gen_next|].
  intros [[row|] it']; [|apply tracked_ret, incl_nil_l].
  apply (tracked_weaken (gen_urls it')); [|apply IH].
  solve_incl.
Qed.

Lemma tracked_take_sample sample_rows fuel : forall it sample,
  tracked (gen_urls it) (take_sample fuel it sample sample_rows) (fun _ => []).
Proof.
  induction fuel as [|f IH]; intros it sample; [apply tracked_out_of_fuel|].
  rewrite take_sample_S.
  apply (tracked_bind _ _ _ (fun step => gen_urls (snd step))); [apply tracked_gen_next|].
  intros [[row|] it']; [|apply tracked_ret, incl_nil_l].
  destruct (Z.of_nat (List.length (sample ++ [row])) >=? sample_rows);
    [apply tracked_ret, incl_nil_l|].
  apply (tracked_weaken (gen_urls it')); [|apply IH].
  solve_incl.
Qed.

Lemma tracked_frame_of urls batch : tracked urls (frame_of batch) (fun _ => []).
Proof.
  unfold frame_of. destruct (as_records batch);
    [apply tracked_ret, incl_nil_l | apply tracked_pure; intros a Ha; discriminate Ha].
Qed.

Lemma tracked_dataverse_to_spark fuel RESOURCE entity_set select filter_ sample_rows :
  tracked [build_entity_url RESOURCE entity_set select filter_ (Some 5000)]
    (dataverse_to_spark fuel RESOURCE entity_set select filter_ sample_rows)
    (fun _ => []).
Proof.
  unfold dataverse_to_spark, fetch_all.
  set (url := build_entity_url RESOURCE entity_set select filter_ (Some 5000)).
  apply (tracked_bind _ _ _ (fun _ => []));
    [apply (tracked_take_sample sample_rows fuel (GStart url))|].
  intros [|row sample]; [apply tracked_ret, incl_nil_l|].
  apply (tracked_bind _ _ _ (fun _ => [])); [apply tracked_frame_of|]. intros sdf.
  apply (tracked_bind _ _ _ (fun _ => [])).
  - apply (tracked_weaken (gen_urls (GStart url))); [|apply tracked_list_gen].
    solve_incl.
  - intros [|row2 rest]; [apply tracked_ret, incl_nil_l|].
    apply (tracked_bind _ _ _ (fun _ => [])); [apply tracked_frame_of|]. intros sdf2.
    apply tracked_ret, incl_nil_l.
Qed.

(** X15.  During a pull nothing is requested that the endpoint did not ask
    for.  Whatever the endpoint serves, every request of
    [list(fetch_all(...))] and of [dataverse_to_spark] goes, without query
    parameters of its own, to the url built for the entity set or to a link a
    response read before carried as its [@odata.nextLink]; every sleep lasts
    between 1 and 30 seconds; no token is asked for; and each response read
    was read by one request, the only request without a response being the
    one that ends the pull with a connection error. *)
Theorem pull_requests_only_served_links
    (fuel : nat) (RESOURCE entity_set : string) (select : option (list string))
    (filter_ : option string) (page_size sample_rows : Z) (w : World) :
  (let url := build_entity_url RESOURCE entity_set select filter_ (Some page_size) in
   let out := list_gen fuel (fetch_all RESOURCE entity_set select filter_ page_size) [] w in
   exists used done,
     script w = used ++ script (snd out) /\
     log (snd out) = log w ++ done /\
     Forall (fetch_event (url :: served_links used)) done /\
     (requests done = List.length used
      \/ (fst out = Raise ConnectionError /\ requests done = S (List.length used)))) /\
  (let url := build_entity_url RESOURCE entity_set select filter_ (Some 5000) in
   let out := dataverse_to_spark fuel RESOURCE entity_set select filter_ sample_rows w in
   exists used done,
     script w = used ++ script (snd out) /\
     log (snd out) = log w ++ done /\
     Forall (fetch_event (url :: served_links used)) done /\
     (requests done = List.length used
      \/ (fst out = Raise ConnectionError /\ requests done = S (List.length used)))).
Proof.
  split.
  - destruct (tracked_list_gen fuel
                (fetch_all RESOURCE entity_set select filter_ page_size) [] w)
      as (used & done & Hsc & Hlog & Hev & Hcount & _).
    exists used, done. repeat split; assumption.
  - destruct (tracked_dataverse_to_spark fuel RESOURCE entity_set select filter_
                sample_rows w) as (used & done & Hsc & Hlog & Hev & Hcount & _).
    exists used, done. repeat split; assumption.
Qed.

(** ** A request without a response *)

(** X16.  A request that gets no response is not retried.  When the endpoint
    stops answering after responses of a retryable status, the next request
    raises the connection error and the call ends there, although attempts
    remain: retries are for the five statuses only. *)
Theorem dataverse_get_does_not_retry_silence
    (url : string) (params : option (list (string * string))) (max_retries : Z)
    (pre : list Response) (l : list Event) :
  Forall (fun r => In (status_code r) [429; 500; 502; 503; 504]) pre ->
  (List.length pre <= 1024)%nat ->
  Z.of_nat (List.length pre) < max_retries ->
  dataverse_get url params max_retries (mkWorld pre l)
  = (Raise ConnectionError,
     mkWorld [] (l ++ retry_events (List.length pre) 1 url params ++ [Get url params])).
Proof.
  intros Hpre Hlen Hmax. apply Forall_retryable in Hpre. unfold dataverse_get.
  rewrite <- (app_nil_r pre) at 1.
  rewrite attempts_retry by (try assumption; lia).
  destruct (Z.to_nat max_retries - List.length pre)%nat as [|n] eqn:En; [lia|].
  simpl attempts. unfold bind, session_get. simpl. now rewrite <- app_assoc.
Qed.

(** Two 503, then silence, with five attempts allowed. *)
Lemma dataverse_get_does_not_retry_silence_witness :
  dataverse_get recipe_url None 5 (mkWorld [busy; busy] [])
  = (Raise ConnectionError,
     mkWorld [] [Get recipe_url None; Sleep 1; Get recipe_url None; Sleep 2;
                 Get recipe_url None]).
Proof.
  apply (dataverse_get_does_not_retry_silence recipe_url None 5 [busy; busy] []).
  - repeat constructor; apply retryable_iff; reflexivity.
  - simpl. lia.
  - simpl. lia.
Defined.
